(** * Z-Wave JS integration: node lifecycle, discovery and notification relay

    A shallow embedding of [homeassistant/components/zwave_js/__init__.py].
    Handlers that mutate [hass] state are functions in a state-and-exception
    monad over the record [Hass]; coroutines that interleave at [await] are
    given a scheduler-driven step function. *)

From Stdlib Require Import ZArith Lia.
From stdpp Require Import gmap strings list fin_maps pretty.

Local Open Scope Z_scope.
Local Open Scope string_scope.
Local Open Scope list_scope.

(** ** Python values, exceptions and results *)

Module Py.

(** JSON-like values carried by a notification ([notification.value]). *)
Inductive Value :=
| VNone
| VBool (b : bool)
| VInt (z : Z)
| VStr (s : string).

#[global] Instance Value_eq_dec : EqDecision Value.
Proof. solve_decision. Defined.

(** [str(value)] *)
Definition str (v : Value) : string :=
  match v with
  | VNone => "None"
  | VBool true => "True"
  | VBool false => "False"
  | VInt z => pretty z
  | VStr s => s
  end.

(** The exceptions the module raises or lets propagate. *)
Inductive Exc :=
| AttributeError      (* attribute access on [None] *)
| CancelledError      (* asyncio.CancelledError *)
| ConfigEntryNotReady
| KeyError
| AddonError
| BaseZwaveJSServerError
| OtherException.     (* any other subclass of [Exception] *)

#[global] Instance Exc_eq_dec : EqDecision Exc.
Proof. solve_decision. Defined.

Inductive Result (A : Type) :=
| Ok (a : A)
| Raise (e : Exc).
Arguments Ok {A} a.
Arguments Raise {A} e.

#[global] Instance Result_eq_dec `{EqDecision A} : EqDecision (Result A).
Proof. solve_decision. Defined.

(** [a or b] on optional strings: [None] and the empty string are falsy. *)
Definition truthy (o : option string) : bool :=
  match o with
  | Some s => negb (String.eqb s "")
  | None => false
  end.

End Py.

(** ** The device registry

    [homeassistant.helpers.device_registry] is outside the sources at hand. *)

Module device_registry.

(** Modelled from the spec: [get_device_id] of [.helpers], missing from the
    sources; a node's identity is its home id together with its node id. *)
Definition Identifier : Type := Z * Z.

#[global] Instance Identifier_eq_dec : EqDecision Identifier.
Proof. unfold Identifier. apply _. Defined.

Record DeviceEntry := {
  id : nat;
  config_entry_id : string;
  identifier : Identifier;
  sw_version : option string;
  name : string;
  model : string;
  manufacturer : string;
  suggested_area : option string;
}.

#[global] Instance DeviceEntry_eq_dec : EqDecision DeviceEntry.
Proof. solve_decision. Defined.

(** The keyword arguments [register_node_in_dev_reg] builds; the key
    [suggested_area] is only present when the node has a location. *)
Record Params := {
  p_config_entry_id : string;
  p_identifier : Identifier;
  p_sw_version : option string;
  p_name : string;
  p_model : string;
  p_manufacturer : string;
  p_suggested_area : option string;
}.

Record t := {
  devices : list DeviceEntry;
  next_id : nat;
}.

(** Modelled from the spec: [async_get_device], missing from the sources;
    [getDevice(identitySet) -> Device?], here for the singleton sets the
    module passes. *)
Definition async_get_device (i : Identifier) (r : t) : option DeviceEntry :=
  head (filter (fun d => identifier d = i) (devices r)).

(** Modelled from the spec: [async_remove_device], missing from the sources;
    [remove(deviceId)]. *)
Definition async_remove_device (did : nat) (r : t) : t :=
  {| devices := filter (fun d => id d ≠ did) (devices r);
     next_id := next_id r |}.

(** Modelled from the spec: [async_entries_for_config_entry], missing from
    the sources; [entriesForEntry(entryId) -> set<Device>]. *)
Definition async_entries_for_config_entry (r : t) (entry : string)
  : list DeviceEntry :=
  filter (fun d => config_entry_id d = entry) (devices r).

Definition overwrite (p : Params) (d : DeviceEntry) : DeviceEntry :=
  {| id := id d;
     config_entry_id := p_config_entry_id p;
     identifier := identifier d;
     sw_version := p_sw_version p;
     name := p_name p;
     model := p_model p;
     manufacturer := p_manufacturer p;
     suggested_area := p_suggested_area p |}.

Definition create (n : nat) (p : Params) : DeviceEntry :=
  {| id := n;
     config_entry_id := p_config_entry_id p;
     identifier := p_identifier p;
     sw_version := p_sw_version p;
     name := p_name p;
     model := p_model p;
     manufacturer := p_manufacturer p;
     suggested_area := p_suggested_area p |}.

(** The list after the upsert, the record it concerns, and whether that
    record is new. *)
Fixpoint upsert (p : Params) (n : nat) (l : list DeviceEntry)
  : list DeviceEntry * DeviceEntry * bool :=
  match l with
  | [] => ([create n p], create n p, true)
  | d :: l' =>
      if decide (identifier d = p_identifier p)
      then (overwrite p d :: l', overwrite p d, false)
      else let '(l'', d', fresh) := upsert p n l' in (d :: l'', d', fresh)
  end.

(** Modelled from the spec: [async_get_or_create], missing from the sources;
    [getOrCreate(deviceParams) -> Device]: same identity, same record, fields
    overwritten, never duplicated. *)
Definition async_get_or_create (p : Params) (r : t) : DeviceEntry * t :=
  let '(l, d, fresh) := upsert p (next_id r) (devices r) in
  (d, {| devices := l; next_id := if fresh then S (next_id r) else next_id r |}).

(** Registry invariant: device ids and identities are unique, and ids were
    handed out by the counter. *)
Definition wf (r : t) : Prop :=
  NoDup (id <$> devices r) ∧
  NoDup (identifier <$> devices r) ∧
  Forall (fun d => (id d < next_id r)%nat) (devices r).

#[global] Instance wf_dec r : Decision (wf r).
Proof. unfold wf. apply _. Defined.

Definition empty : t := {| devices := []; next_id := 0 |}.

End device_registry.

(** ** The integration's state and handlers *)

Module zwave_js.
Import Py.

Record DeviceConfig := {
  description : option string;
  label : string;
  manufacturer : string;
}.

(** A discovery descriptor ([ZwaveDiscoveryInfo]): the platform it belongs to
    and the value it was derived from. *)
Record DiscoveryInfo := {
  disc_node_id : Z;
  platform : string;
  primary_value : string;
}.

#[global] Instance DiscoveryInfo_eq_dec : EqDecision DiscoveryInfo.
Proof. solve_decision. Defined.

Record ZwaveNode := {
  node_id : Z;
  ready : bool;
  name : option string;
  location : option string;
  firmware_version : option string;
  device_config : DeviceConfig;
  (** Modelled from the spec: [async_discover_values] of [.discovery],
      missing from the sources; [discover(node)] is a pure function of the
      node, so the node carries the descriptors it maps to. *)
  discovered : list DiscoveryInfo;
}.

Definition async_discover_values (node : ZwaveNode) : list DiscoveryInfo :=
  discovered node.

Record ZwaveClient := {
  home_id : Z;
  connected : bool;
  nodes : list ZwaveNode;   (* client.driver.controller.nodes.values() *)
}.

Record ConfigEntry := {
  entry_id : string;
}.

(** Modelled from the spec: [get_device_id] of [.helpers], missing from the
    sources; the identity of a node is (home id, node id). *)
Definition get_device_id (client : ZwaveClient) (node : ZwaveNode)
  : device_registry.Identifier :=
  (home_id client, node_id node).

(** [async_dispatcher_send] signals. *)
Inductive Signal :=
| EVENT_DEVICE_ADDED_TO_REGISTRY (device : device_registry.DeviceEntry)
| add_platform (entry : string) (pf : string) (disc_info : DiscoveryInfo).

#[global] Instance Signal_eq_dec : EqDecision Signal.
Proof. solve_decision. Defined.

Record ValueNotification := {
  vn_node : ZwaveNode;
  vn_endpoint : Z;
  vn_command_class : Z;
  vn_command_class_name : string;
  vn_label : string;                 (* metadata.label *)
  vn_states : gmap string string;    (* metadata.states *)
  vn_property : string;
  vn_property_name : string;
  vn_property_key : string;
  vn_property_key_name : string;
  vn_value : Value;
}.

Inductive Notification :=
| EntryControlNotification (node : ZwaveNode) (command_class : Z)
    (event_type data_type : Z) (event_data : string)
| NotificationNotification (node : ZwaveNode) (command_class : Z)
    (label : string) (type_ event : Z) (event_label parameters : string).

Definition notification_node (n : Notification) : ZwaveNode :=
  match n with
  | EntryControlNotification node _ _ _ _ => node
  | NotificationNotification node _ _ _ _ _ _ => node
  end.

Definition notification_command_class (n : Notification) : Z :=
  match n with
  | EntryControlNotification _ cc _ _ _ => cc
  | NotificationNotification _ cc _ _ _ _ _ => cc
  end.

(** The payload of a [ZWAVE_JS_VALUE_NOTIFICATION_EVENT]. *)
Record ValueNotificationEvent := {
  ATTR_NODE_ID : Z;
  ATTR_HOME_ID : Z;
  ATTR_ENDPOINT : Z;
  ATTR_DEVICE_ID : nat;
  ATTR_COMMAND_CLASS : Z;
  ATTR_COMMAND_CLASS_NAME : string;
  ATTR_LABEL : string;
  ATTR_PROPERTY : string;
  ATTR_PROPERTY_NAME : string;
  ATTR_PROPERTY_KEY : string;
  ATTR_PROPERTY_KEY_NAME : string;
  ATTR_VALUE : Value;
  ATTR_VALUE_RAW : Value;
}.

(** The variant-specific part of a [ZWAVE_JS_NOTIFICATION_EVENT]. *)
Inductive NotificationDetail :=
| EntryControl (event_type data_type : Z) (event_data : string)
| Alert (label : string) (type_ event : Z) (event_label parameters : string).

Inductive BusEvent :=
| ZWAVE_JS_VALUE_NOTIFICATION_EVENT (data : ValueNotificationEvent)
| ZWAVE_JS_NOTIFICATION_EVENT (node home : Z) (device_id : nat)
    (command_class : Z) (command_class_name : string)
    (detail : NotificationDetail).

(** Listeners whose unsubscribe callbacks the entry collects. *)
Inductive Listener :=
| on_value_notification (node : Z)
| on_notification (node : Z)
| on_homeassistant_stop
| on_node_added
| on_node_removed.

#[global] Instance Listener_eq_dec : EqDecision Listener.
Proof. solve_decision. Defined.

(** The state of an [asyncio.Task]. *)
Inductive TaskState :=
| Pending
| Done                 (* finished with a result *)
| Cancelled
| Failed (e : Exc).    (* finished with an exception *)

#[global] Instance TaskState_eq_dec : EqDecision TaskState.
Proof. solve_decision. Defined.

(** What the handlers close over and mutate. Logs are oldest first. *)
Record Hass := {
  dev_reg : device_registry.t;
  migrated : list DiscoveryInfo;       (* async_migrate_discovered_value calls *)
  platform_setup_tasks : gmap string TaskState;   (* DATA_PLATFORM_SETUP *)
  created_tasks : list string;         (* async_forward_entry_setup tasks created *)
  dispatched : list Signal;
  fired : list BusEvent;
  unsubscribe_callbacks : list Listener;
  once_ready : list Z;                 (* nodes with a pending [once("ready")] *)
}.

Definition M (A : Type) : Type := Hass -> Result A * Hass.

#[global] Instance M_ret : MRet M := fun A a s => (Ok a, s).
#[global] Instance M_bind : MBind M := fun A B k m s =>
  match m s with
  | (Ok a, s') => k a s'
  | (Raise e, s') => (Raise e, s')
  end.

Definition raise {A} (e : Exc) : M A := fun s => (Raise e, s).
Definition get : M Hass := fun s => (Ok s, s).
Definition modify (f : Hass -> Hass) : M unit := fun s => (Ok tt, f s).

Definition set_dev_reg (r : device_registry.t) (s : Hass) : Hass :=
  {| dev_reg := r; migrated := migrated s;
     platform_setup_tasks := platform_setup_tasks s;
     created_tasks := created_tasks s; dispatched := dispatched s;
     fired := fired s; unsubscribe_callbacks := unsubscribe_callbacks s;
     once_ready := once_ready s |}.

Definition async_dispatcher_send (sig : Signal) (s : Hass) : Hass :=
  {| dev_reg := dev_reg s; migrated := migrated s;
     platform_setup_tasks := platform_setup_tasks s;
     created_tasks := created_tasks s; dispatched := dispatched s ++ [sig];
     fired := fired s; unsubscribe_callbacks := unsubscribe_callbacks s;
     once_ready := once_ready s |}.

Definition async_fire (e : BusEvent) (s : Hass) : Hass :=
  {| dev_reg := dev_reg s; migrated := migrated s;
     platform_setup_tasks := platform_setup_tasks s;
     created_tasks := created_tasks s; dispatched := dispatched s;
     fired := fired s ++ [e]; unsubscribe_callbacks := unsubscribe_callbacks s;
     once_ready := once_ready s |}.

Definition append_unsubscribe (l : Listener) (s : Hass) : Hass :=
  {| dev_reg := dev_reg s; migrated := migrated s;
     platform_setup_tasks := platform_setup_tasks s;
     created_tasks := created_tasks s; dispatched := dispatched s;
     fired := fired s; unsubscribe_callbacks := unsubscribe_callbacks s ++ [l];
     once_ready := once_ready s |}.

Definition async_migrate_discovered_value (d : DiscoveryInfo) (s : Hass) : Hass :=
  {| dev_reg := dev_reg s; migrated := migrated s ++ [d];
     platform_setup_tasks := platform_setup_tasks s;
     created_tasks := created_tasks s; dispatched := dispatched s;
     fired := fired s; unsubscribe_callbacks := unsubscribe_callbacks s;
     once_ready := once_ready s |}.

Definition set_task (pf : string) (st : TaskState) (s : Hass) : Hass :=
  {| dev_reg := dev_reg s; migrated := migrated s;
     platform_setup_tasks := <[pf := st]> (platform_setup_tasks s);
     created_tasks := created_tasks s; dispatched := dispatched s;
     fired := fired s; unsubscribe_callbacks := unsubscribe_callbacks s;
     once_ready := once_ready s |}.

(** [hass.async_create_task(async_forward_entry_setup(entry, platform))],
    stored under the platform's key. *)
Definition create_setup_task (pf : string) (s : Hass) : Hass :=
  {| dev_reg := dev_reg s; migrated := migrated s;
     platform_setup_tasks := <[pf := Pending]> (platform_setup_tasks s);
     created_tasks := created_tasks s ++ [pf]; dispatched := dispatched s;
     fired := fired s; unsubscribe_callbacks := unsubscribe_callbacks s;
     once_ready := once_ready s |}.

Definition set_once_ready (l : list Z) (s : Hass) : Hass :=
  {| dev_reg := dev_reg s; migrated := migrated s;
     platform_setup_tasks := platform_setup_tasks s;
     created_tasks := created_tasks s; dispatched := dispatched s;
     fired := fired s; unsubscribe_callbacks := unsubscribe_callbacks s;
     once_ready := l |}.

(** [entry_hass_data] as [async_setup_entry] initialises it. *)
Definition initial (r : device_registry.t) : Hass :=
  {| dev_reg := r; migrated := []; platform_setup_tasks := ∅;
     created_tasks := []; dispatched := []; fired := [];
     unsubscribe_callbacks := []; once_ready := [] |}.

(** [node.name or node.device_config.description or f"Node {node.node_id}"] *)
Definition display_name (node : ZwaveNode) : string :=
  if truthy (name node) then default "" (name node)
  else if truthy (description (device_config node))
       then default "" (description (device_config node))
       else "Node " +:+ pretty (node_id node).

Definition registration_params (entry : ConfigEntry) (client : ZwaveClient)
    (node : ZwaveNode) : device_registry.Params :=
  {| device_registry.p_config_entry_id := entry_id entry;
     device_registry.p_identifier := get_device_id client node;
     device_registry.p_sw_version := firmware_version node;
     device_registry.p_name := display_name node;
     device_registry.p_model := label (device_config node);
     device_registry.p_manufacturer := manufacturer (device_config node);
     device_registry.p_suggested_area :=
       if truthy (location node) then location node else None |}.

Definition register_node_in_dev_reg (entry : ConfigEntry)
    (client : ZwaveClient) (node : ZwaveNode) (s : Hass) : Hass :=
  let '(device, r) :=
    device_registry.async_get_or_create
      (registration_params entry client node) (dev_reg s) in
  async_dispatcher_send (EVENT_DEVICE_ADDED_TO_REGISTRY device)
    (set_dev_reg r s).

(** [for x in l: body(x)] *)
Fixpoint for_ {A} (l : list A) (body : A -> M unit) : M unit :=
  match l with
  | [] => mret tt
  | x :: l' => body x;; for_ l' body
  end.

Section setup_entry.
(** What the handlers nested in [async_setup_entry] close over. *)
Variables (entry : ConfigEntry) (client : ZwaveClient).

(** [if disc_info.platform not in platform_setup_tasks: ... create_task] *)
Definition ensure_setup_task (pf : string) (s : Hass) : Hass :=
  match platform_setup_tasks s !! pf with
  | None => create_setup_task pf s
  | Some _ => s
  end.

(** [await platform_setup_tasks[pf]] for a handler that runs on its own: the
    event loop runs a pending setup task to its end before the handler
    resumes; awaiting a cancelled task raises. *)
Definition await_setup_task (pf : string) : M unit := fun s =>
  match platform_setup_tasks s !! pf with
  | Some Cancelled => (Raise CancelledError, s)
  | Some (Failed e) => (Raise e, s)
  | Some Done => (Ok tt, s)
  | Some Pending => (Ok tt, set_task pf Done s)
  | None => (Raise KeyError, s)
  end.

Definition publish (disc_info : DiscoveryInfo) : Signal :=
  add_platform (entry_id entry) (platform disc_info) disc_info.

(** The body of the loop over the discovered values. *)
Definition discover (disc_info : DiscoveryInfo) : M unit :=
  modify (async_migrate_discovered_value disc_info);;
  modify (ensure_setup_task (platform disc_info));;
  await_setup_task (platform disc_info);;
  modify (async_dispatcher_send (publish disc_info)).

Definition async_on_node_ready (node : ZwaveNode) : M unit :=
  modify (register_node_in_dev_reg entry client node);;
  for_ (async_discover_values node) discover;;
  modify (append_unsubscribe (on_value_notification (node_id node)));;
  modify (append_unsubscribe (on_notification (node_id node))).

Definition async_on_node_added (node : ZwaveNode) : M unit :=
  if ready node then async_on_node_ready node
  else
    modify (fun s => set_once_ready (once_ready s ++ [node_id node]) s);;
    modify (register_node_in_dev_reg entry client node).

(** The node's [ready] event: every callback registered with
    [node.once("ready", ...)] is dropped and called, each call running
    [async_on_node_ready] as a task of its own. *)
Definition emit_ready (node : ZwaveNode) : M unit :=
  s ← get;
  modify (set_once_ready
            (filter (fun w => w ≠ node_id node) (once_ready s)));;
  for_ (filter (fun w => w = node_id node) (once_ready s))
    (fun _ => async_on_node_ready node).

Definition async_on_node_removed (node : ZwaveNode) : M unit :=
  s ← get;
  let dev_id := get_device_id client node in
  match device_registry.async_get_device dev_id (dev_reg s) with
  | None => raise AttributeError   (* [device.id] with [device] None *)
  | Some device =>
      modify (fun s =>
        set_dev_reg
          (device_registry.async_remove_device (device_registry.id device)
             (dev_reg s)) s)
  end.

(** [value = notification.metadata.states.get(str(value), value)] under
    [if notification.metadata.states]. *)
Definition decode_value (states : gmap string string) (raw_value : Value)
  : Value :=
  if bool_decide (states = ∅) then raw_value
  else default raw_value (VStr <$> states !! str raw_value).

Definition async_on_value_notification (notification : ValueNotification)
  : M unit :=
  s ← get;
  let device :=
    device_registry.async_get_device
      (get_device_id client (vn_node notification)) (dev_reg s) in
  let raw_value := vn_value notification in
  let value := decode_value (vn_states notification) raw_value in
  match device with
  | None => raise AttributeError   (* [device.id] with [device] None *)
  | Some device =>
      modify (async_fire (ZWAVE_JS_VALUE_NOTIFICATION_EVENT
        {| ATTR_NODE_ID := node_id (vn_node notification);
           ATTR_HOME_ID := home_id client;
           ATTR_ENDPOINT := vn_endpoint notification;
           ATTR_DEVICE_ID := device_registry.id device;
           ATTR_COMMAND_CLASS := vn_command_class notification;
           ATTR_COMMAND_CLASS_NAME := vn_command_class_name notification;
           ATTR_LABEL := vn_label notification;
           ATTR_PROPERTY := vn_property notification;
           ATTR_PROPERTY_NAME := vn_property_name notification;
           ATTR_PROPERTY_KEY := vn_property_key notification;
           ATTR_PROPERTY_KEY_NAME := vn_property_key_name notification;
           ATTR_VALUE := value;
           ATTR_VALUE_RAW := raw_value |}))
  end.

Definition async_on_notification (notification : Notification) : M unit :=
  s ← get;
  let node := notification_node notification in
  match device_registry.async_get_device (get_device_id client node)
          (dev_reg s) with
  | None => raise AttributeError   (* [device.id] with [device] None *)
  | Some device =>
      let fire name detail :=
        modify (async_fire (ZWAVE_JS_NOTIFICATION_EVENT (node_id node)
          (home_id client) (device_registry.id device)
          (notification_command_class notification) name detail)) in
      match notification with
      | EntryControlNotification _ _ event_type data_type event_data =>
          fire "Entry Control" (EntryControl event_type data_type event_data)
      | NotificationNotification _ _ label type_ event event_label params =>
          fire "Notification" (Alert label type_ event event_label params)
      end
  end.

(** [start_platforms] once [driver_ready] is set: stale devices first. *)
Definition remove_stale_devices : M unit :=
  s ← get;
  let stored_devices :=
    device_registry.async_entries_for_config_entry (dev_reg s)
      (entry_id entry) in
  let known_devices :=
    (fun node =>
       device_registry.async_get_device (get_device_id client node)
         (dev_reg s)) <$> nodes client in
  for_ stored_devices (fun device =>
    if bool_decide (Some device ∈ known_devices) then mret tt
    else modify (fun s =>
           set_dev_reg
             (device_registry.async_remove_device (device_registry.id device)
                (dev_reg s)) s)).

(** [start_platforms]; [driver_ready] is how [await driver_ready.wait()]
    ends. The gathered [async_on_node_added] coroutines run one after the
    other here; their interleaving is modelled below. *)
Definition start_platforms (driver_ready : Result unit) : M unit :=
  modify (append_unsubscribe on_homeassistant_stop);;
  match driver_ready with
  | Raise CancelledError => mret tt
  | Raise e => raise e
  | Ok _ =>
      remove_stale_devices;;
      for_ (nodes client) async_on_node_added;;
      modify (append_unsubscribe on_node_added);;
      modify (append_unsubscribe on_node_removed)
  end.

(** *** Discovery passes that interleave

    [async_on_node_ready] as a coroutine: it yields to the event loop only at
    [await platform_setup_tasks[...]], and only while that task is pending. *)
Inductive Coroutine :=
| NotStarted (node : ZwaveNode)
| Awaiting (node : ZwaveNode) (disc_info : DiscoveryInfo)
    (rest : list DiscoveryInfo)
| Returned
| Raised (e : Exc).

(** The [for] loop over the descriptors still to process, up to the first
    [await] of a pending task or to the end of the handler. *)
Fixpoint discovery_loop (node : ZwaveNode) (ds : list DiscoveryInfo)
    (s : Hass) : Coroutine * Hass :=
  match ds with
  | [] =>
      (Returned,
       append_unsubscribe (on_notification (node_id node))
         (append_unsubscribe (on_value_notification (node_id node)) s))
  | d :: ds' =>
      let s := ensure_setup_task (platform d)
                 (async_migrate_discovered_value d s) in
      match platform_setup_tasks s !! platform d with
      | Some Done => discovery_loop node ds' (async_dispatcher_send (publish d) s)
      | Some Pending => (Awaiting node d ds', s)
      | Some Cancelled => (Raised CancelledError, s)
      | Some (Failed e) => (Raised e, s)
      | None => (Raised KeyError, s)
      end
  end.

(** Run a coroutine up to its next suspension. *)
Definition resume (c : Coroutine) (s : Hass) : Coroutine * Hass :=
  match c with
  | NotStarted node =>
      discovery_loop node (async_discover_values node)
        (register_node_in_dev_reg entry client node s)
  | Awaiting node d rest =>
      match platform_setup_tasks s !! platform d with
      | Some Done => discovery_loop node rest (async_dispatcher_send (publish d) s)
      | Some Cancelled => (Raised CancelledError, s)
      | Some (Failed e) => (Raised e, s)
      | _ => (c, s)
      end
  | _ => (c, s)
  end.

(** What the event loop may do next. *)
Inductive Choice :=
| Spawn (node : ZwaveNode)              (* create_task(async_on_node_ready(node)) *)
| Resume (i : nat)                      (* run the i-th coroutine *)
| Finish (pf : string) (st : TaskState). (* a pending setup task ends *)

Record Loop := {
  hass : Hass;
  coroutines : list Coroutine;
}.

Definition step (c : Choice) (l : Loop) : Loop :=
  match c with
  | Spawn node =>
      {| hass := hass l; coroutines := coroutines l ++ [NotStarted node] |}
  | Resume i =>
      match coroutines l !! i with
      | Some co =>
          let '(co', s) := resume co (hass l) in
          {| hass := s; coroutines := <[i := co']> (coroutines l) |}
      | None => l
      end
  | Finish pf st =>
      match platform_setup_tasks (hass l) !! pf, st with
      | Some Pending, Pending => l
      | Some Pending, _ =>
          {| hass := set_task pf st (hass l); coroutines := coroutines l |}
      | _, _ => l
      end
  end.

Definition run (schedule : list Choice) (l : Loop) : Loop :=
  foldl (fun l c => step c l) l schedule.

Definition session_start (r : device_registry.t) : Loop :=
  {| hass := initial r; coroutines := [] |}.

End setup_entry.

End zwave_js.

(** ** The listen task *)

Module listen.
Import Py.

Inductive Effect :=
| client_listen_call                 (* await client.listen(driver_ready) *)
| LOGGER_error
| LOGGER_exception
| LOGGER_info
| async_reload (entry_id : string).  (* create_task(config_entries.async_reload(...)) *)

#[global] Instance Effect_eq_dec : EqDecision Effect.
Proof. solve_decision. Defined.

(** [client_listen]; [listen_ends] is how [await client.listen(driver_ready)]
    ends. Every exception of [Exc] other than [CancelledError] derives from
    [Exception]. The result is whether the coroutine itself raises. *)
Definition client_listen (entry : zwave_js.ConfigEntry)
    (listen_ends : Result unit) : Result unit * list Effect :=
  let should_reload := true in
  let '(should_reload, logged) :=
    match listen_ends with
    | Ok _ => (should_reload, [])
    | Raise CancelledError => (false, [])
    | Raise BaseZwaveJSServerError => (should_reload, [LOGGER_error])
    | Raise _ => (should_reload, [LOGGER_exception])
    end in
  (Ok tt,
   ([client_listen_call] ++ logged ++
    if should_reload : bool
    then [LOGGER_info; async_reload (zwave_js.entry_id entry)]
    else [])%list).

Definition reloads (entry : zwave_js.ConfigEntry) (tr : list Effect) : nat :=
  length (filter (fun e => e = async_reload (zwave_js.entry_id entry)) tr).

Definition listens (tr : list Effect) : nat :=
  length (filter (fun e => e = client_listen_call) tr).

End listen.

(** ** Disconnecting *)

Module disconnect.
Import Py.

Inductive Task :=
| listen_task
| platform_task                 (* start_platforms *)
| setup_task (pf : string).     (* a value of DATA_PLATFORM_SETUP *)

#[global] Instance Task_eq_dec : EqDecision Task.
Proof. solve_decision. Defined.

Inductive Event :=
| cancel (t : Task)             (* t.cancel() *)
| joined (t : Task)             (* gather saw t finished *)
| client_disconnect
| LOGGER_info.

#[global] Instance Event_eq_dec : EqDecision Event.
Proof. solve_decision. Defined.

(** The tasks of the session and the transport. [ends t] is how task [t],
    if still pending, comes to its end once the event loop runs it. *)
Record World := {
  state : Task -> zwave_js.TaskState;
  cancel_requested : Task -> bool;
  ends : Task -> zwave_js.TaskState;
  platforms : option (list string);   (* keys of hass.data[DOMAIN][entry_id][DATA_PLATFORM_SETUP] *)
  connected : bool;
  trace : list Event;                 (* oldest first *)
}.

Definition log (e : Event) (w : World) : World :=
  {| state := state w; cancel_requested := cancel_requested w;
     ends := ends w; platforms := platforms w; connected := connected w;
     trace := trace w ++ [e] |}.

(** [t.cancel()]: a request, which a finished task ignores. *)
Definition task_cancel (t : Task) (w : World) : World :=
  log (cancel t)
    {| state := state w;
       cancel_requested := fun t' =>
         if bool_decide (t' = t)
         then bool_decide (state w t = zwave_js.Pending) || cancel_requested w t
         else cancel_requested w t';
       ends := ends w; platforms := platforms w; connected := connected w;
       trace := trace w |}.

Definition set_state (t : Task) (st : zwave_js.TaskState) (w : World) : World :=
  {| state := fun t' => if bool_decide (t' = t) then st else state w t';
     cancel_requested := cancel_requested w;
     ends := ends w; platforms := platforms w; connected := connected w;
     trace := trace w |}.

(** The event loop runs [t] to its end. *)
Definition settle (t : Task) (w : World) : World :=
  match state w t with
  | zwave_js.Pending => set_state t (ends w t) w
  | _ => w
  end.

(** [await asyncio.gather] of the tasks [ts], without [return_exceptions]: the result once
    every task has finished, or the first exception. The tasks are taken in
    the order of the arguments. *)
Fixpoint gather (ts : list Task) (w : World) : Result unit * World :=
  match ts with
  | [] => (Ok tt, w)
  | t :: ts' =>
      let w := settle t w in
      match state w t with
      | zwave_js.Done => gather ts' (log (joined t) w)
      | zwave_js.Cancelled => (Raise CancelledError, w)
      | zwave_js.Failed e => (Raise e, w)
      | zwave_js.Pending => (Raise OtherException, w)   (* never ends *)
      end
  end.

(** [hass.data[DOMAIN].get(entry.entry_id, {}).get(DATA_PLATFORM_SETUP, {}).values()] *)
Definition platform_setup_tasks (w : World) : list Task :=
  setup_task <$> default [] (platforms w).

Definition disconnect_client (w : World) : Result unit * World :=
  let w := task_cancel listen_task w in
  let w := task_cancel platform_task w in
  let tasks := platform_setup_tasks w in
  let w := foldl (fun w t => task_cancel t w) w tasks in
  match gather (listen_task :: platform_task :: tasks) w with
  | (Ok _, w) =>
      if connected w
      then (Ok tt, log LOGGER_info (log client_disconnect w))
      else (Ok tt, w)
  | (Raise e, w) => (Raise e, w)
  end.

(** The tasks the transport's users run in. *)
Definition dependents (w : World) : list Task :=
  listen_task :: platform_task :: platform_setup_tasks w.

End disconnect.

(** ** The add-on guard *)

Module addon.
Import Py.

(** Modelled from the spec: [AddonManager] of [.addon], missing from the
    sources; the add-on is not installed, installed but stopped, or running;
    [isInstalled()] and [isRunning()] fail with [AddonError] when the
    supervisor cannot be asked; scheduling an operation puts it in flight. *)
Inductive AddonState :=
| NotInstalled
| Stopped
| Started.

Inductive Call :=
| async_is_addon_installed
| async_is_addon_running
| async_schedule_install_setup_addon (usb_path network_key : string) (catch_error : bool)
| async_schedule_setup_addon (usb_path network_key : string) (catch_error : bool)
| async_schedule_update_addon (catch_error : bool).

#[global] Instance Call_eq_dec : EqDecision Call.
Proof. solve_decision. Defined.

Record AddonManager := {
  task_in_progress : bool;
  addon_info : option AddonState;   (* None: the query raises AddonError *)
  calls : list Call;                (* oldest first *)
}.

Definition called (c : Call) (m : AddonManager) : AddonManager :=
  {| task_in_progress := task_in_progress m; addon_info := addon_info m;
     calls := calls m ++ [c] |}.

Definition is_addon_installed (m : AddonManager) : Result bool * AddonManager :=
  match addon_info m with
  | None => (Raise AddonError, called async_is_addon_installed m)
  | Some NotInstalled => (Ok false, called async_is_addon_installed m)
  | Some _ => (Ok true, called async_is_addon_installed m)
  end.

Definition is_addon_running (m : AddonManager) : Result bool * AddonManager :=
  match addon_info m with
  | None => (Raise AddonError, called async_is_addon_running m)
  | Some Started => (Ok true, called async_is_addon_running m)
  | Some _ => (Ok false, called async_is_addon_running m)
  end.

Definition schedule (c : Call) (m : AddonManager) : AddonManager :=
  {| task_in_progress := true; addon_info := addon_info m;
     calls := calls m ++ [c] |}.

Record EntryData := {
  CONF_USB_PATH : string;
  CONF_NETWORK_KEY : string;
}.

Definition async_ensure_addon_running (data : EntryData) (m : AddonManager)
  : Result unit * AddonManager :=
  if task_in_progress m then (Raise ConfigEntryNotReady, m)
  else
    match is_addon_installed m with
    | (Raise _, m) => (Raise ConfigEntryNotReady, m)
    | (Ok addon_is_installed, m) =>
        match is_addon_running m with
        | (Raise _, m) => (Raise ConfigEntryNotReady, m)
        | (Ok addon_is_running, m) =>
            let usb_path := CONF_USB_PATH data in
            let network_key := CONF_NETWORK_KEY data in
            if negb addon_is_installed then
              (Raise ConfigEntryNotReady,
               schedule (async_schedule_install_setup_addon usb_path network_key true) m)
            else if negb addon_is_running then
              (Raise ConfigEntryNotReady,
               schedule (async_schedule_setup_addon usb_path network_key true) m)
            else (Ok tt, m)
        end
    end.

Definition async_ensure_addon_updated (m : AddonManager)
  : Result unit * AddonManager :=
  if task_in_progress m then (Raise ConfigEntryNotReady, m)
  else (Ok tt, schedule (async_schedule_update_addon true) m).

End addon.

(** ** Setting an entry up *)

Module entry_setup.
Import Py.

(** The keys of [entry_hass_data] that outlive a setup attempt. A key that
    was never set is [None]. *)
Record EntryHassData := {
  DATA_PLATFORM_SETUP : option (list string);       (* keys of the task map *)
  DATA_CONNECT_FAILED_LOGGED : option bool;
  DATA_INVALID_SERVER_VERSION_LOGGED : option bool;
  DATA_START_PLATFORM_TASK : bool;                  (* the key is present *)
}.

#[global] Instance EntryHassData_eq_dec : EqDecision EntryHassData.
Proof. solve_decision. Defined.

Definition empty_data : EntryHassData :=
  {| DATA_PLATFORM_SETUP := None; DATA_CONNECT_FAILED_LOGGED := None;
     DATA_INVALID_SERVER_VERSION_LOGGED := None;
     DATA_START_PLATFORM_TASK := false |}.

Inductive Logged :=
| error_invalid_server_version
| error_failed_to_connect
| info_connected.

#[global] Instance Logged_eq_dec : EqDecision Logged.
Proof. solve_decision. Defined.

(** How [await client.connect()] under [timeout(CONNECT_TIMEOUT)] ends.
    [InvalidServerVersion] derives from [BaseZwaveJSServerError];
    [server_error] is any other exception of that class. *)
Inductive Connect :=
| connected
| InvalidServerVersion
| TimeoutError
| server_error
| other_error.

#[global] Instance Connect_eq_dec : EqDecision Connect.
Proof. solve_decision. Defined.

Record Hass := {
  data : gmap string EntryHassData;     (* hass.data[DOMAIN] *)
  addon_manager : addon.AddonManager;
  connects : nat;                       (* calls of client.connect() *)
  logged : list Logged;                 (* oldest first *)
  registered : nat;                     (* services.async_register() and async_register_api *)
  started : list string;                (* entries with a start_platforms task created *)
}.

Record ConfigEntry := {
  entry : zwave_js.ConfigEntry;
  CONF_USE_ADDON : bool;
  entry_data : addon.EntryData;
}.

(** [async_setup] *)
Definition async_setup (h : Hass) : bool * Hass :=
  (true,
   {| data := ∅; addon_manager := addon_manager h; connects := connects h;
      logged := logged h; registered := registered h; started := started h |}).

Definition set_addon_manager (m : addon.AddonManager) (h : Hass) : Hass :=
  {| data := data h; addon_manager := m; connects := connects h;
     logged := logged h; registered := registered h; started := started h |}.

Definition set_entry_data (k : string) (d : EntryHassData) (h : Hass) : Hass :=
  {| data := <[k := d]> (data h); addon_manager := addon_manager h;
     connects := connects h; logged := logged h; registered := registered h;
     started := started h |}.

Definition log (l : Logged) (h : Hass) : Hass :=
  {| data := data h; addon_manager := addon_manager h; connects := connects h;
     logged := logged h ++ [l]; registered := registered h; started := started h |}.

Definition connect_called (h : Hass) : Hass :=
  {| data := data h; addon_manager := addon_manager h; connects := S (connects h);
     logged := logged h; registered := registered h; started := started h |}.

Definition start (k : string) (h : Hass) : Hass :=
  {| data := data h; addon_manager := addon_manager h; connects := connects h;
     logged := logged h; registered := S (registered h);
     started := started h ++ [k] |}.

Definition set_platform_setup (d : EntryHassData) : EntryHassData :=
  {| DATA_PLATFORM_SETUP := Some [];
     DATA_CONNECT_FAILED_LOGGED := DATA_CONNECT_FAILED_LOGGED d;
     DATA_INVALID_SERVER_VERSION_LOGGED := DATA_INVALID_SERVER_VERSION_LOGGED d;
     DATA_START_PLATFORM_TASK := DATA_START_PLATFORM_TASK d |}.

Definition set_connect_failed_logged (b : bool) (d : EntryHassData) : EntryHassData :=
  {| DATA_PLATFORM_SETUP := DATA_PLATFORM_SETUP d;
     DATA_CONNECT_FAILED_LOGGED := Some b;
     DATA_INVALID_SERVER_VERSION_LOGGED := DATA_INVALID_SERVER_VERSION_LOGGED d;
     DATA_START_PLATFORM_TASK := DATA_START_PLATFORM_TASK d |}.

Definition set_invalid_server_version_logged (b : bool) (d : EntryHassData)
  : EntryHassData :=
  {| DATA_PLATFORM_SETUP := DATA_PLATFORM_SETUP d;
     DATA_CONNECT_FAILED_LOGGED := DATA_CONNECT_FAILED_LOGGED d;
     DATA_INVALID_SERVER_VERSION_LOGGED := Some b;
     DATA_START_PLATFORM_TASK := DATA_START_PLATFORM_TASK d |}.

Definition set_start_platform_task (d : EntryHassData) : EntryHassData :=
  {| DATA_PLATFORM_SETUP := DATA_PLATFORM_SETUP d;
     DATA_CONNECT_FAILED_LOGGED := DATA_CONNECT_FAILED_LOGGED d;
     DATA_INVALID_SERVER_VERSION_LOGGED := DATA_INVALID_SERVER_VERSION_LOGGED d;
     DATA_START_PLATFORM_TASK := true |}.

(** [entry_hass_data.get(key)] in a condition: unset and [False] are falsy. *)
Definition flag (o : option bool) : bool := default false o.

(** [async_setup_entry] up to the creation of the [start_platforms] task;
    [conn] is how the connection attempt ends. *)
Definition async_setup_entry (e : ConfigEntry) (conn : Connect) (h : Hass)
  : Result bool * Hass :=
  let use_addon := CONF_USE_ADDON e in
  let k := zwave_js.entry_id (entry e) in
  match (if use_addon
         then addon.async_ensure_addon_running (entry_data e) (addon_manager h)
         else (Ok tt, addon_manager h)) with
  | (Raise err, m) => (Raise err, set_addon_manager m h)
  | (Ok _, m) =>
      let h := set_addon_manager m h in
      (* hass.data[DOMAIN].setdefault(entry.entry_id, {}) *)
      let entry_hass_data := set_platform_setup (default empty_data (data h !! k)) in
      let h := connect_called (set_entry_data k entry_hass_data h) in
      match conn with
      | InvalidServerVersion =>
          let h :=
            if flag (DATA_INVALID_SERVER_VERSION_LOGGED entry_hass_data)
            then h
            else
              set_entry_data k
                (set_invalid_server_version_logged true entry_hass_data)
                (log error_invalid_server_version h) in
          if use_addon then
            match addon.async_ensure_addon_updated (addon_manager h) with
            | (Raise err, m) => (Raise err, set_addon_manager m h)
            | (Ok _, m) => (Raise ConfigEntryNotReady, set_addon_manager m h)
            end
          else (Raise ConfigEntryNotReady, h)
      | TimeoutError | server_error =>
          if flag (DATA_CONNECT_FAILED_LOGGED entry_hass_data)
          then (Raise ConfigEntryNotReady, h)
          else
            (Raise ConfigEntryNotReady,
             set_entry_data k (set_connect_failed_logged true entry_hass_data)
               (log error_failed_to_connect h))
      | other_error => (Raise OtherException, h)
      | connected =>
          let d := set_invalid_server_version_logged false
                     (set_connect_failed_logged false entry_hass_data) in
          let h := set_entry_data k d (log info_connected h) in
          (Ok true, set_entry_data k (set_start_platform_task d) (start k h))
      end
  end.

(** Setup attempts one after the other, as the retries of a config entry. *)
Fixpoint attempts (e : ConfigEntry) (conns : list Connect) (h : Hass) : Hass :=
  match conns with
  | [] => h
  | c :: conns' => attempts e conns' (async_setup_entry e c h).2
  end.

End entry_setup.

(** ** Removing and unloading an entry *)

Module addon_ops.
Import Py.

(** Modelled from the spec: [async_stop_addon], [async_create_snapshot] and
    [async_uninstall_addon] of [AddonManager] in [.addon], missing from the
    sources; [stop()], [snapshot()] and [uninstall()] each end well or with
    an [AddonError]. [fails] is which of them end with the error. *)
Inductive Op :=
| async_stop_addon
| async_create_snapshot
| async_uninstall_addon.

#[global] Instance Op_eq_dec : EqDecision Op.
Proof. solve_decision. Defined.

Record Supervisor := {
  fails : Op -> bool;
  performed : list Op;      (* oldest first *)
  errors : list Op;         (* LOGGER.error after the operation failed *)
}.

Definition perform (op : Op) (m : Supervisor) : Result unit * Supervisor :=
  (if fails m op then Raise AddonError else Ok tt,
   {| fails := fails m; performed := performed m ++ [op]; errors := errors m |}).

Definition LOGGER_error (op : Op) (m : Supervisor) : Supervisor :=
  {| fails := fails m; performed := performed m; errors := errors m ++ [op] |}.


End addon_ops.

Module entry_unload.
Import Py.

(** What [async_unload_entry] does, in order. *)
Inductive Step :=
| unsub (i : nat)                          (* the i-th callback of DATA_UNSUBSCRIBE *)
| task_event (e : disconnect.Event)
| async_forward_entry_unload (pf : string)
| addon_op (op : addon_ops.Op)
| LOGGER_error.

#[global] Instance Step_eq_dec : EqDecision Step.
Proof. solve_decision. Defined.

(** What [gather] awaits for a platform: the coroutine that unloads it, or
    its setup task. *)
Inductive Awaitable :=
| unload_coroutine (pf : string)
| setup (pf : string).

Record Session := {
  world : disconnect.World;
  unsubscribe_callbacks : nat;            (* len(info[DATA_UNSUBSCRIBE]) *)
  has_listen_task : bool;                 (* DATA_CLIENT_LISTEN_TASK in info *)
  unloads : string -> Result bool;        (* how async_forward_entry_unload ends *)
  setup_result : string -> bool;          (* the result of a finished setup task *)
  use_addon : bool;                       (* entry.data.get(CONF_USE_ADDON) *)
  disabled_by : bool;                     (* entry.disabled_by is set *)
  supervisor : addon_ops.Supervisor;
  steps : list Step;                      (* oldest first *)
}.

Definition set_world (w : disconnect.World) (s : Session) : Session :=
  {| world := w; unsubscribe_callbacks := unsubscribe_callbacks s;
     has_listen_task := has_listen_task s; unloads := unloads s;
     setup_result := setup_result s; use_addon := use_addon s;
     disabled_by := disabled_by s; supervisor := supervisor s;
     steps := steps s |}.

Definition add_steps (l : list Step) (s : Session) : Session :=
  {| world := world s; unsubscribe_callbacks := unsubscribe_callbacks s;
     has_listen_task := has_listen_task s; unloads := unloads s;
     setup_result := setup_result s; use_addon := use_addon s;
     disabled_by := disabled_by s; supervisor := supervisor s;
     steps := steps s ++ l |}.

Definition set_supervisor (m : addon_ops.Supervisor) (s : Session) : Session :=
  {| world := world s; unsubscribe_callbacks := unsubscribe_callbacks s;
     has_listen_task := has_listen_task s; unloads := unloads s;
     setup_result := setup_result s; use_addon := use_addon s;
     disabled_by := disabled_by s; supervisor := m;
     steps := steps s |}.

(** [hass.data[DOMAIN].pop(entry.entry_id)]: the entry's data are gone from
    [hass.data]. *)
Definition popped (w : disconnect.World) : disconnect.World :=
  {| disconnect.state := disconnect.state w;
     disconnect.cancel_requested := disconnect.cancel_requested w;
     disconnect.ends := disconnect.ends w;
     disconnect.platforms := None;
     disconnect.connected := disconnect.connected w;
     disconnect.trace := disconnect.trace w |}.

(** The loop over [info[DATA_PLATFORM_SETUP].items()]: a finished task has
    its platform unloaded, a pending one is cancelled and awaited. *)
Fixpoint collect (pfs : list string) (s : Session) : list Awaitable * Session :=
  match pfs with
  | [] => ([], s)
  | pf :: pfs' =>
      let t := disconnect.setup_task pf in
      if bool_decide (disconnect.state (world s) t = zwave_js.Pending)
      then
        let s := add_steps [task_event (disconnect.cancel t)]
                   (set_world (disconnect.task_cancel t (world s)) s) in
        let '(tasks, s) := collect pfs' s in (setup pf :: tasks, s)
      else
        let '(tasks, s) := collect pfs' s in (unload_coroutine pf :: tasks, s)
  end.

(** [await asyncio.gather] of the collected awaitables, in the order of the
    arguments: their results, or the first exception. *)
Fixpoint gather (aws : list Awaitable) (s : Session)
  : Result (list bool) * Session :=
  match aws with
  | [] => (Ok [], s)
  | unload_coroutine pf :: aws' =>
      let s := add_steps [async_forward_entry_unload pf] s in
      match unloads s pf with
      | Raise e => (Raise e, s)
      | Ok b =>
          match gather aws' s with
          | (Ok bs, s) => (Ok (b :: bs), s)
          | (Raise e, s) => (Raise e, s)
          end
      end
  | setup pf :: aws' =>
      let t := disconnect.setup_task pf in
      let w := disconnect.settle t (world s) in
      match disconnect.state w t with
      | zwave_js.Done =>
          let s := add_steps [task_event (disconnect.joined t)]
                     (set_world (disconnect.log (disconnect.joined t) w) s) in
          match gather aws' s with
          | (Ok bs, s) => (Ok (setup_result s pf :: bs), s)
          | (Raise e, s) => (Raise e, s)
          end
      | zwave_js.Cancelled => (Raise CancelledError, set_world w s)
      | zwave_js.Failed e => (Raise e, set_world w s)
      | zwave_js.Pending => (Raise OtherException, set_world w s)
      end
  end.

(** [await disconnect_client(...)], what it does added to the steps. *)
Definition disconnect_client (s : Session) : Result unit * Session :=
  let '(r, w) := disconnect.disconnect_client (world s) in
  (r, add_steps
        (task_event <$> drop (length (disconnect.trace (world s))) (disconnect.trace w))
        (set_world w s)).

Definition async_unload_entry (s : Session) : Result bool * Session :=
  match disconnect.platforms (world s) with
  | None => (Raise KeyError, s)
  | Some pfs =>
      let s := set_world (popped (world s)) s in
      let s := add_steps (unsub <$> seq 0 (unsubscribe_callbacks s)) s in
      let '(tasks, s) := collect pfs s in
      match gather tasks s with
      | (Raise e, s) => (Raise e, s)
      | (Ok results, s) =>
          let unload_ok := forallb id results in
          match (if has_listen_task s then disconnect_client s else (Ok tt, s)) with
          | (Raise e, s) => (Raise e, s)
          | (Ok _, s) =>
              if use_addon s && disabled_by s then
                match addon_ops.perform addon_ops.async_stop_addon (supervisor s) with
                | (Ok _, m) =>
                    (Ok unload_ok,
                     add_steps [addon_op addon_ops.async_stop_addon]
                       (set_supervisor m s))
                | (Raise AddonError, m) =>
                    (Ok false,
                     add_steps [addon_op addon_ops.async_stop_addon; LOGGER_error]
                       (set_supervisor (addon_ops.LOGGER_error
                                          addon_ops.async_stop_addon m) s))
                | (Raise e, m) =>
                    (Raise e,
                     add_steps [addon_op addon_ops.async_stop_addon]
                       (set_supervisor m s))
                end
              else (Ok unload_ok, s)
          end
      end
  end.

End entry_unload.
(** ** Sample data *)

Module sample.
Import zwave_js.

Definition entry : ConfigEntry := {| entry_id := "entry-1" |}.

Definition mk_node (n : Z) (is_ready : bool) (ds : list DiscoveryInfo)
  : ZwaveNode :=
  {| node_id := n; ready := is_ready; name := None; location := None;
     firmware_version := Some "1.0";
     device_config :=
       {| description := Some "Dimmer"; label := "ZW100";
          manufacturer := "ACME" |};
     discovered := ds |}.

Definition light (n : Z) : DiscoveryInfo :=
  {| disc_node_id := n; platform := "light"; primary_value := "targetValue" |}.
Definition sensor (n : Z) : DiscoveryInfo :=
  {| disc_node_id := n; platform := "sensor"; primary_value := "power" |}.

Definition node_A : ZwaveNode := mk_node 1 true [light 1; sensor 1].
Definition node_B : ZwaveNode := mk_node 2 true [light 2].
Definition node_C : ZwaveNode := mk_node 3 true [sensor 3].
(** Node B before it is interviewed: not ready, nothing known about it. *)
Definition node_B_added : ZwaveNode :=
  {| node_id := 2; ready := false; name := None; location := None;
     firmware_version := None;
     device_config := {| description := None; label := ""; manufacturer := "" |};
     discovered := [] |}.

Definition client_of (ns : list ZwaveNode) : ZwaveClient :=
  {| home_id := 4242; connected := true; nodes := ns |}.

(** The registry after nodes A, B and C were registered. *)
Definition registry_ABC : device_registry.t :=
  let c := client_of [] in
  let reg n r := snd (device_registry.async_get_or_create
                        (registration_params entry c n) r) in
  reg node_C (reg node_B (reg node_A device_registry.empty)).

Definition press : ValueNotification :=
  {| vn_node := node_B; vn_endpoint := 0; vn_command_class := 91;
     vn_command_class_name := "Central Scene"; vn_label := "Scene 001";
     vn_states := {[ "0" := "KeyPressed"; "1" := "KeyReleased" ]};
     vn_property := "scene"; vn_property_name := "scene";
     vn_property_key := "001"; vn_property_key_name := "001";
     vn_value := Py.VInt 0 |}.

Definition alarm : Notification :=
  NotificationNotification node_B 113 "Home Security" 7 3 "Tampering" "".

End sample.

(** * Properties *)

(** ** The device registry *)

Section registry_facts.
Import device_registry.

Lemma get_device_Some i r d :
  async_get_device i r = Some d → d ∈ devices r ∧ identifier d = i.
Proof.
  unfold async_get_device. intros H.
  apply head_Some_elem_of in H. apply list_elem_of_filter in H. tauto.
Qed.

Lemma get_device_None i r :
  async_get_device i r = None ↔ i ∉ identifier <$> devices r.
Proof.
  unfold async_get_device. rewrite head_None. split.
  - intros H Hin. apply list_elem_of_fmap in Hin as (d & -> & Hd).
    eapply (filter_nil_not_elem_of _ _ d) in H; [done | done].
  - intros H. induction (devices r) as [|d l IH]; [done|].
    rewrite fmap_cons, not_elem_of_cons in H. destruct H as [Hne H].
    rewrite filter_cons_False by congruence. auto.
Qed.

Lemma get_device_unique i r d :
  NoDup (identifier <$> devices r) → d ∈ devices r → identifier d = i →
  async_get_device i r = Some d.
Proof.
  unfold async_get_device. intros Hnd Hd <-.
  induction (devices r) as [|d' l IH]; [by apply elem_of_nil in Hd|].
  rewrite fmap_cons in Hnd. apply NoDup_cons in Hnd as [Hnotin Hnd].
  apply elem_of_cons in Hd as [->|Hd].
  - by rewrite filter_cons_True.
  - rewrite filter_cons_False; [by apply IH|].
    intros Heq. apply Hnotin. rewrite Heq. apply list_elem_of_fmap. eauto.
Qed.

Lemma overwrite_overwrite p1 p2 d : overwrite p2 (overwrite p1 d) = overwrite p2 d.
Proof. done. Qed.

Lemma overwrite_create p1 p2 n :
  p_identifier p1 = p_identifier p2 → overwrite p2 (create n p1) = create n p2.
Proof. unfold overwrite, create. simpl. by intros ->. Qed.

(** A second upsert for the same identity overwrites the record of the first
    and creates nothing: the last registration wins. *)
Lemma upsert_upsert p1 p2 n m l :
  p_identifier p1 = p_identifier p2 →
  upsert p2 m (upsert p1 n l).1.1 =
    ((upsert p2 n l).1.1, (upsert p2 n l).1.2, false) ∧
  (upsert p1 n l).2 = (upsert p2 n l).2.
Proof.
  intros Hi. induction l as [|d l IH]; simpl.
  - rewrite decide_True by done. by rewrite overwrite_create.
  - rewrite Hi. destruct (decide (identifier d = p_identifier p2)) as [Hd|Hd]; simpl.
    + by rewrite decide_True.
    + destruct (upsert p1 n l) as [[l1 d1] f1], (upsert p2 n l) as [[l2 d2] f2].
      simpl in *. rewrite decide_False by done.
      destruct IH as [-> ->]. done.
Qed.

Lemma get_or_create_twice p1 p2 r :
  p_identifier p1 = p_identifier p2 →
  async_get_or_create p2 (async_get_or_create p1 r).2 = async_get_or_create p2 r.
Proof.
  intros Hi. unfold async_get_or_create.
  destruct (upsert_upsert p1 p2 (next_id r) (next_id r) (devices r) Hi) as [H1 H2].
  destruct (upsert_upsert p1 p2 (next_id r) (S (next_id r)) (devices r) Hi) as [H1' _].
  destruct (upsert p1 (next_id r) (devices r)) as [[l1 d1] f1].
  destruct (upsert p2 (next_id r) (devices r)) as [[l2 d2] f2].
  simpl in *. subst f2. destruct f1; simpl.
  - by rewrite H1'.
  - by rewrite H1.
Qed.

(** The registry's operations keep its invariant. *)
Lemma wf_empty : wf empty.
Proof. split; [|split]; simpl; [apply NoDup_nil_2 | apply NoDup_nil_2 | done]. Qed.

Lemma wf_filter (P : DeviceEntry → Prop) `{!∀ d, Decision (P d)} r :
  wf r → wf {| devices := filter P (devices r); next_id := next_id r |}.
Proof.
  intros (Hid & Hident & Hlt). split; [|split]; simpl.
  - eapply sublist_NoDup; [exact Hid|]. apply fmap_sublist, sublist_filter.
  - eapply sublist_NoDup; [exact Hident|]. apply fmap_sublist, sublist_filter.
  - rewrite Forall_forall in *. intros d [_ Hd]%list_elem_of_filter. by apply Hlt.
Qed.

Lemma wf_remove did r : wf r → wf (async_remove_device did r).
Proof. apply wf_filter. Qed.

Lemma upsert_shape p n l :
  let '(l', d, fresh) := upsert p n l in
  id <$> l' = (id <$> l) ++ (if fresh then [n] else []) ∧
  identifier <$> l' =
    (identifier <$> l) ++ (if fresh then [p_identifier p] else []) ∧
  (fresh = true → p_identifier p ∉ identifier <$> l) ∧
  d ∈ l' ∧ identifier d = p_identifier p.
Proof.
  induction l as [|x l IH]; simpl.
  - split; [done|]. split; [done|]. split; [intros _; apply not_elem_of_nil|].
    split; [by left | done].
  - destruct (decide (identifier x = p_identifier p)) as [Hx|Hx]; simpl.
    + rewrite !app_nil_r. split; [done|]. split; [done|]. split; [done|].
      split; [by left | done].
    + destruct (upsert p n l) as [[l' d] fresh].
      destruct IH as (H1 & H2 & Hfresh & Hd & Hi).
      rewrite !fmap_cons, H1, H2.
      split; [done|]. split; [done|]. split; [|split; [by right | done]].
      intros Hf. apply not_elem_of_cons. split; [congruence | by apply Hfresh].
Qed.

Lemma wf_get_or_create p r : wf r → wf (async_get_or_create p r).2.
Proof.
  intros (Hid & Hident & Hlt). unfold async_get_or_create.
  pose proof (upsert_shape p (next_id r) (devices r)) as Hshape.
  destruct (upsert p (next_id r) (devices r)) as [[l d] fresh] eqn:Hup.
  destruct Hshape as (Hids & Hidents & Hfresh & _ & _).
  split; [|split]; simpl.
  - rewrite Hids. destruct fresh; [|by rewrite app_nil_r].
    apply NoDup_app. split; [done|]. split; [|apply NoDup_singleton].
    intros x Hx ->%list_elem_of_singleton.
    apply list_elem_of_fmap in Hx as (d' & Hn & Hd').
    rewrite Forall_forall in Hlt. specialize (Hlt d' Hd'). lia.
  - rewrite Hidents. destruct fresh; [|by rewrite app_nil_r].
    apply NoDup_app. split; [done|]. split; [|apply NoDup_singleton].
    intros x Hx ->%list_elem_of_singleton. by apply Hfresh.
  - rewrite Forall_forall in *. intros d' Hd'.
    assert (Hin : id d' ∈ id <$> l) by (apply list_elem_of_fmap; eauto).
    rewrite Hids in Hin. apply elem_of_app in Hin as [Hin|Hin].
    + apply list_elem_of_fmap in Hin as (d'' & -> & Hd'').
      specialize (Hlt d'' Hd''). destruct fresh; lia.
    + destruct fresh; [|by apply elem_of_nil in Hin].
      apply list_elem_of_singleton in Hin. lia.
Qed.

End registry_facts.

(** ** Node removal and the notification relay *)

Section relay_facts.
Import Py zwave_js.
Variables (entry : ConfigEntry) (client : ZwaveClient).

(** Removing a node that has no device raises and changes nothing. *)
Lemma node_removed_absent node s :
  device_registry.async_get_device (get_device_id client node) (dev_reg s) = None →
  async_on_node_removed client node s = (Raise AttributeError, s).
Proof.
  intros H. unfold async_on_node_removed, mbind, M_bind, get. simpl.
  by rewrite H.
Qed.

(** Removing a registered node succeeds and leaves no device for it, when
    identities are unique in the registry. *)
Lemma node_removed_present node s d :
  NoDup (device_registry.identifier <$> device_registry.devices (dev_reg s)) →
  device_registry.async_get_device (get_device_id client node) (dev_reg s) = Some d →
  ∃ s', async_on_node_removed client node s = (Ok tt, s') ∧
        device_registry.async_get_device (get_device_id client node) (dev_reg s') = None.
Proof.
  intros Hnd H. unfold async_on_node_removed, mbind, M_bind, get. simpl.
  rewrite H. eexists; split; [reflexivity|]. simpl.
  apply get_device_None. simpl. intros Hin.
  apply list_elem_of_fmap in Hin as (d' & Hid & Hd').
  apply list_elem_of_filter in Hd' as [Hne Hd'].
  apply get_device_Some in H as [Hd Hi].
  apply Hne. f_equal.
  assert (Hlk : device_registry.async_get_device (get_device_id client node)
                  (dev_reg s) = Some d') by (by apply get_device_unique).
  assert (Hlk' : device_registry.async_get_device (get_device_id client node)
                  (dev_reg s) = Some d) by (by apply get_device_unique).
  congruence.
Qed.

(** Whatever the registry with unique identities and whatever the node, a
    second removal in a row raises. *)
Lemma node_removed_twice node s d :
  NoDup (device_registry.identifier <$> device_registry.devices (dev_reg s)) →
  device_registry.async_get_device (get_device_id client node) (dev_reg s) = Some d →
  ∃ s', async_on_node_removed client node s = (Ok tt, s') ∧
        async_on_node_removed client node s' = (Raise AttributeError, s').
Proof.
  intros Hnd Hd. destruct (node_removed_present node s d Hnd Hd) as (s' & H1 & H2).
  exists s'. split; [done|]. by apply node_removed_absent.
Qed.

(** Without a device for the node, both relay handlers raise on
    [device.id] and fire nothing. *)
Lemma value_notification_absent notification s :
  device_registry.async_get_device
    (get_device_id client (vn_node notification)) (dev_reg s) = None →
  async_on_value_notification client notification s = (Raise AttributeError, s).
Proof.
  intros H. unfold async_on_value_notification, mbind, M_bind, get. simpl.
  by rewrite H.
Qed.

Lemma notification_absent notification s :
  device_registry.async_get_device
    (get_device_id client (notification_node notification)) (dev_reg s) = None →
  async_on_notification client notification s = (Raise AttributeError, s).
Proof.
  intros H. unfold async_on_notification, mbind, M_bind, get. simpl.
  by rewrite H.
Qed.

End relay_facts.

Section relay_failures.
Import Py zwave_js sample.

(** C1. The removal handler is not a no-op on an absent device: with the
    devices of nodes A, B and C registered, the first removal of node B
    succeeds and removes its device, and the second removal of node B raises
    [AttributeError], the lookup having returned [None]. *)
Theorem node_removed_twice_raises :
  let client := client_of [node_A; node_C] in
  let s0 := initial registry_ABC in
  ∃ s1,
    async_on_node_removed client node_B s0 = (Ok tt, s1) ∧
    device_registry.id <$> device_registry.devices (dev_reg s1) = [0%nat; 2%nat] ∧
    async_on_node_removed client node_B s1 = (Raise AttributeError, s1).
Proof.
  eexists. split; [vm_compute; reflexivity|]. split; reflexivity.
Qed.

(** C5. The relay does not fail silently for an unregistered node: with only
    the devices of nodes A and C registered, a value notification and an
    alert notification of node B both raise [AttributeError], and nothing is
    fired on the bus. *)
Theorem notification_unregistered_node_raises :
  let client := client_of [node_A; node_B; node_C] in
  let s0 := initial (device_registry.async_remove_device 1 registry_ABC) in
  async_on_value_notification client press s0 = (Raise AttributeError, s0) ∧
  async_on_notification client alarm s0 = (Raise AttributeError, s0).
Proof. split; reflexivity. Qed.

End relay_failures.

Section value_notification_facts.
Import Py zwave_js.
Variables (client : ZwaveClient).

Lemma value_notification_fires notification s s' :
  async_on_value_notification client notification s = (Ok tt, s') →
  ∃ device,
    device_registry.async_get_device
      (get_device_id client (vn_node notification)) (dev_reg s) = Some device ∧
    fired s' = fired s ++
      [ZWAVE_JS_VALUE_NOTIFICATION_EVENT
         {| ATTR_NODE_ID := node_id (vn_node notification);
            ATTR_HOME_ID := home_id client;
            ATTR_ENDPOINT := vn_endpoint notification;
            ATTR_DEVICE_ID := device_registry.id device;
            ATTR_COMMAND_CLASS := vn_command_class notification;
            ATTR_COMMAND_CLASS_NAME := vn_command_class_name notification;
            ATTR_LABEL := vn_label notification;
            ATTR_PROPERTY := vn_property notification;
            ATTR_PROPERTY_NAME := vn_property_name notification;
            ATTR_PROPERTY_KEY := vn_property_key notification;
            ATTR_PROPERTY_KEY_NAME := vn_property_key_name notification;
            ATTR_VALUE :=
              decode_value (vn_states notification) (vn_value notification);
            ATTR_VALUE_RAW := vn_value notification |}].
Proof.
  unfold async_on_value_notification, mbind, M_bind, get. simpl.
  destruct (device_registry.async_get_device _ _) as [device|]; [|done].
  intros [= <-]. by exists device.
Qed.

Lemma decode_value_fallback states raw :
  states !! str raw = None → decode_value states raw = raw.
Proof. unfold decode_value. intros ->. by case_bool_decide. Qed.

Lemma decode_value_label states raw lbl :
  states !! str raw = Some lbl → decode_value states raw = VStr lbl.
Proof.
  unfold decode_value. intros H. case_bool_decide as He.
  - by rewrite He, lookup_empty in H.
  - by rewrite H.
Qed.

(** C10. In every published value-notification event the raw value is the
    notification's value, and the decoded value is that same raw value when
    the states table of the metadata has no entry for it. *)
Theorem value_notification_raw_and_fallback notification s s' :
  async_on_value_notification client notification s = (Ok tt, s') →
  ∃ data,
    fired s' = fired s ++ [ZWAVE_JS_VALUE_NOTIFICATION_EVENT data] ∧
    ATTR_VALUE_RAW data = vn_value notification ∧
    (vn_states notification !! str (vn_value notification) = None →
     ATTR_VALUE data = vn_value notification).
Proof.
  intros H. apply value_notification_fires in H as (device & _ & ->).
  eexists. split; [reflexivity|]. split; [reflexivity|]. simpl.
  apply decode_value_fallback.
Qed.

End value_notification_facts.

Section value_notification_witness.
Import Py zwave_js sample.

Definition press_unlabelled : ValueNotification :=
  {| vn_node := node_B; vn_endpoint := 0; vn_command_class := 91;
     vn_command_class_name := "Central Scene"; vn_label := "Scene 001";
     vn_states := {[ "0" := "KeyPressed"; "1" := "KeyReleased" ]};
     vn_property := "scene"; vn_property_name := "scene";
     vn_property_key := "001"; vn_property_key_name := "001";
     vn_value := VInt 5 |}.

Lemma value_notification_raw_and_fallback_witness :
  let client := client_of [node_B] in
  let s0 := initial registry_ABC in
  vn_states press_unlabelled !! str (vn_value press_unlabelled) = None ∧
  ∃ data,
    fired (async_on_value_notification client press_unlabelled s0).2 =
      fired s0 ++ [ZWAVE_JS_VALUE_NOTIFICATION_EVENT data] ∧
    ATTR_VALUE_RAW data = VInt 5 ∧
    (vn_states press_unlabelled !! str (vn_value press_unlabelled) = None →
     ATTR_VALUE data = VInt 5).
Proof.
  split; [vm_compute; reflexivity|].
  apply (value_notification_raw_and_fallback (client_of [node_B])
           press_unlabelled (initial registry_ABC)).
  vm_compute. reflexivity.
Defined.

Example str_of_values :
  str (VInt (-12)) = "-12" ∧ str (VBool true) = "True" ∧ str VNone = "None".
Proof. vm_compute. repeat split. Qed.

(** With an entry in the states table the decoded value is the label. *)
Example press_decoded :
  ∃ s' data,
    async_on_value_notification (client_of [node_B]) press
      (initial registry_ABC) = (Ok tt, s') ∧
    fired s' = [ZWAVE_JS_VALUE_NOTIFICATION_EVENT data] ∧
    ATTR_VALUE_RAW data = VInt 0 ∧ ATTR_VALUE data = VStr "KeyPressed".
Proof. do 2 eexists. vm_compute. repeat split. Qed.

End value_notification_witness.

(** ** The listen task *)

Section listen_facts.
Import Py listen.

(** C6. [client_listen] calls [client.listen] once, never raises, and asks
    for the entry to be reloaded exactly once however the listen ends, a
    cancellation apart, after which it asks for no reload. *)
Theorem listen_reloads_once_unless_cancelled entry listen_ends :
  let '(result, effects) := client_listen entry listen_ends in
  result = Ok tt ∧
  listens effects = 1%nat ∧
  reloads entry effects =
    (if decide (listen_ends = Raise CancelledError) then 0 else 1)%nat.
Proof.
  destruct listen_ends as [[]|[]]; cbn -[decide];
    (split; [reflexivity|]); unfold listens, reloads; cbn -[decide];
    repeat (rewrite ?filter_cons, ?filter_nil; repeat case_decide; try done).
Qed.

Example listen_server_error :
  client_listen sample.entry (Raise BaseZwaveJSServerError) =
    (Ok tt, [client_listen_call; LOGGER_error; LOGGER_info; async_reload "entry-1"]).
Proof. reflexivity. Qed.

Example listen_cancelled :
  client_listen sample.entry (Raise CancelledError) = (Ok tt, [client_listen_call]).
Proof. reflexivity. Qed.

End listen_facts.

(** ** The add-on guard *)

Section addon_facts.
Import Py addon.

(** C9. With a lifecycle operation in flight the request fails at once with
    [ConfigEntryNotReady], asking and scheduling nothing. Otherwise a running
    add-on lets the request return with nothing scheduled; an add-on that is
    not installed has its installation scheduled, and one that is installed
    but stopped has its start scheduled, the request ending in both cases
    with [ConfigEntryNotReady] and the operation in flight. *)
Theorem ensure_addon_running_guard data m :
  (task_in_progress m = true →
     async_ensure_addon_running data m = (Raise ConfigEntryNotReady, m)) ∧
  (task_in_progress m = false → addon_info m = Some Started →
     ∃ m', async_ensure_addon_running data m = (Ok tt, m') ∧
           task_in_progress m' = false ∧
           calls m' = calls m ++ [async_is_addon_installed; async_is_addon_running]) ∧
  (task_in_progress m = false → addon_info m = Some NotInstalled →
     ∃ m', async_ensure_addon_running data m = (Raise ConfigEntryNotReady, m') ∧
           task_in_progress m' = true ∧
           calls m' = calls m ++
             [async_is_addon_installed; async_is_addon_running;
              async_schedule_install_setup_addon
                (CONF_USB_PATH data) (CONF_NETWORK_KEY data) true]) ∧
  (task_in_progress m = false → addon_info m = Some Stopped →
     ∃ m', async_ensure_addon_running data m = (Raise ConfigEntryNotReady, m') ∧
           task_in_progress m' = true ∧
           calls m' = calls m ++
             [async_is_addon_installed; async_is_addon_running;
              async_schedule_setup_addon
                (CONF_USB_PATH data) (CONF_NETWORK_KEY data) true]).
Proof.
  unfold async_ensure_addon_running, is_addon_installed, is_addon_running.
  destruct m as [busy info log]; simpl.
  repeat split.
  - by intros ->.
  - intros -> ->. eexists. split; [reflexivity|]. simpl.
    split; [done|]. by rewrite <- app_assoc.
  - intros -> ->. eexists. split; [reflexivity|]. simpl.
    split; [done|]. by rewrite <- !app_assoc.
  - intros -> ->. eexists. split; [reflexivity|]. simpl.
    split; [done|]. by rewrite <- !app_assoc.
Qed.

Definition idle (st : AddonState) : AddonManager :=
  {| task_in_progress := false; addon_info := Some st; calls := [] |}.

Definition usb_stick : EntryData :=
  {| CONF_USB_PATH := "/dev/ttyUSB0"; CONF_NETWORK_KEY := "0102" |}.

Lemma ensure_addon_running_guard_witness :
  let busy := (async_ensure_addon_running usb_stick (idle NotInstalled)).2 in
  task_in_progress busy = true ∧
  async_ensure_addon_running usb_stick busy = (Raise ConfigEntryNotReady, busy) ∧
  (∃ m', async_ensure_addon_running usb_stick (idle Started) = (Ok tt, m') ∧
         task_in_progress m' = false ∧
         calls m' = [async_is_addon_installed; async_is_addon_running]) ∧
  (∃ m', async_ensure_addon_running usb_stick (idle NotInstalled) =
           (Raise ConfigEntryNotReady, m') ∧
         task_in_progress m' = true ∧
         calls m' = [async_is_addon_installed; async_is_addon_running;
                     async_schedule_install_setup_addon "/dev/ttyUSB0" "0102" true]) ∧
  (∃ m', async_ensure_addon_running usb_stick (idle Stopped) =
           (Raise ConfigEntryNotReady, m') ∧
         task_in_progress m' = true ∧
         calls m' = [async_is_addon_installed; async_is_addon_running;
                     async_schedule_setup_addon "/dev/ttyUSB0" "0102" true]).
Proof.
  intros busy. split; [reflexivity|].
  split.
  { apply (proj1 (ensure_addon_running_guard usb_stick busy)). reflexivity. }
  split.
  { apply (proj1 (proj2 (ensure_addon_running_guard usb_stick (idle Started))));
      reflexivity. }
  split.
  { apply (proj1 (proj2 (proj2
      (ensure_addon_running_guard usb_stick (idle NotInstalled))))); reflexivity. }
  apply (proj2 (proj2 (proj2
      (ensure_addon_running_guard usb_stick (idle Stopped))))); reflexivity.
Defined.

(** A failing status query is reported as not ready, nothing scheduled. *)
Lemma ensure_addon_running_query_fails data m :
  task_in_progress m = false → addon_info m = None →
  ∃ m', async_ensure_addon_running data m = (Raise ConfigEntryNotReady, m') ∧
        task_in_progress m' = false ∧
        calls m' = calls m ++ [async_is_addon_installed].
Proof.
  unfold async_ensure_addon_running, is_addon_installed.
  destruct m as [busy info log]; simpl.
  intros -> ->. eexists. split; [reflexivity|]. done.
Qed.

End addon_facts.

(** ** Stale devices at session start *)

Section state_facts.
Import zwave_js.

Lemma set_dev_reg_same s : set_dev_reg (dev_reg s) s = s.
Proof. by destruct s. Qed.

Lemma filter_agree {A} (P Q : A → Prop)
    `{!∀ x, Decision (P x)} `{!∀ x, Decision (Q x)} (l : list A) :
  (∀ x, x ∈ l → (P x ↔ Q x)) → filter P l = filter Q l.
Proof.
  induction l as [|x l IH]; intros Hpq; [done|].
  rewrite !filter_cons.
  rewrite IH by (intros y Hy; apply Hpq; by right).
  destruct (decide (P x)) as [HP|HP], (decide (Q x)) as [HQ|HQ]; try done.
  - exfalso. apply HQ, Hpq; [by left | done].
  - exfalso. apply HP, Hpq; [by left | done].
Qed.

End state_facts.

Section stale_devices.
Import Py zwave_js.
Variables (entry : ConfigEntry) (client : ZwaveClient).

(** Removing the devices of [stale], one id after the other. *)
Definition remove_all (stale : list device_registry.DeviceEntry)
    (r : device_registry.t) : device_registry.t :=
  foldl (fun r d => device_registry.async_remove_device (device_registry.id d) r)
    r stale.

Lemma remove_all_devices stale r :
  device_registry.devices (remove_all stale r) =
    filter (fun d => device_registry.id d ∉ device_registry.id <$> stale)
      (device_registry.devices r) ∧
  device_registry.next_id (remove_all stale r) = device_registry.next_id r.
Proof.
  revert r. induction stale as [|d stale IH]; intros r; simpl.
  - split; [|done]. induction (device_registry.devices r) as [|x l IHl]; [done|].
    rewrite filter_cons_True by apply not_elem_of_nil. by f_equal.
  - destruct (IH (device_registry.async_remove_device (device_registry.id d) r))
      as [-> ->]. split; [|done]. simpl.
    rewrite list_filter_filter. apply list_filter_iff. intros x.
    rewrite not_elem_of_cons. tauto.
Qed.

Lemma stale_loop (known : list (option device_registry.DeviceEntry)) l s :
  for_ l (fun device =>
      if bool_decide (Some device ∈ known) then mret tt
      else modify (fun s =>
             set_dev_reg
               (device_registry.async_remove_device (device_registry.id device)
                  (dev_reg s)) s)) s =
    (Ok tt,
     set_dev_reg (remove_all (filter (fun d => Some d ∉ known) l) (dev_reg s)) s).
Proof.
  revert s. induction l as [|d l IH]; intros s; simpl.
  - unfold mret, M_ret. by rewrite set_dev_reg_same.
  - unfold mbind, M_bind. rewrite filter_cons.
    case_bool_decide as Hk.
    + rewrite decide_False by tauto. unfold mret, M_ret. apply IH.
    + rewrite decide_True by done. unfold modify. rewrite IH. done.
Qed.

(** C4. At session start the reconciliation keeps, unchanged and in place,
    every device of another entry and every device of this entry whose
    identity is that of a live node, and removes the other devices of the
    entry; nothing is created. The identities and ids of the registry's
    devices are unique. *)
Theorem stale_devices_removed s :
  device_registry.wf (dev_reg s) →
  ∃ r',
    remove_stale_devices entry client s = (Ok tt, set_dev_reg r' s) ∧
    device_registry.next_id r' = device_registry.next_id (dev_reg s) ∧
    device_registry.devices r' =
      filter (fun d => ¬ (device_registry.config_entry_id d = entry_id entry ∧
                          device_registry.identifier d ∉
                            get_device_id client <$> nodes client))
        (device_registry.devices (dev_reg s)).
Proof.
  intros (Hid & Hident & _).
  unfold remove_stale_devices, mbind, M_bind, get.
  rewrite stale_loop. eexists. split; [reflexivity|].
  destruct (remove_all_devices
    (filter (fun d => Some d ∉
       (fun node => device_registry.async_get_device
                      (get_device_id client node) (dev_reg s)) <$> nodes client)
       (device_registry.async_entries_for_config_entry (dev_reg s) (entry_id entry)))
    (dev_reg s)) as [-> ->].
  split; [done|].
  apply filter_agree. intros d Hd.
  assert (Hknown : Some d ∈
      (fun node => device_registry.async_get_device
                     (get_device_id client node) (dev_reg s)) <$> nodes client
      ↔ device_registry.identifier d ∈ get_device_id client <$> nodes client).
  { rewrite !list_elem_of_fmap. split.
    - intros (node & Hlk & Hnode). exists node. split; [|done].
      symmetry in Hlk. by apply get_device_Some in Hlk as [_ ->].
    - intros (node & Hi & Hnode). exists node. split; [|done].
      symmetry. by apply get_device_unique. }
  rewrite <- Hknown. split.
  - intros Hnot [He Hk]. apply Hnot.
    apply list_elem_of_fmap. exists d. split; [done|].
    apply list_elem_of_filter. split; [done|].
    unfold device_registry.async_entries_for_config_entry.
    by apply list_elem_of_filter.
  - intros Hnot Hin. apply list_elem_of_fmap in Hin as (d' & Hidd & Hd').
    apply list_elem_of_filter in Hd' as [Hk' Hd'].
    apply list_elem_of_filter in Hd' as [He' Hd'].
    assert (d = d') as <-.
    { apply list_elem_of_lookup in Hd as [i Hi].
      apply list_elem_of_lookup in Hd' as [j Hj].
      assert (i = j) as <-; [|congruence].
      eapply NoDup_lookup; [exact Hid| |].
      - by rewrite list_lookup_fmap, Hi.
      - by rewrite list_lookup_fmap, Hj, Hidd. }
    tauto.
Qed.

End stale_devices.

Section stale_devices_witness.
Import Py zwave_js sample.

Lemma registry_ABC_wf : device_registry.wf registry_ABC.
Proof.
  apply (bool_decide_unpack (device_registry.wf registry_ABC)).
  vm_compute. exact I.
Qed.

Lemma stale_devices_removed_witness :
  let client := client_of [node_A; node_C] in
  let s := initial registry_ABC in
  device_registry.wf (dev_reg s) ∧
  ∃ r',
    remove_stale_devices entry client s = (Ok tt, set_dev_reg r' s) ∧
    device_registry.identifier <$> device_registry.devices (dev_reg s) =
      [(4242, 1); (4242, 2); (4242, 3)] ∧
    device_registry.identifier <$> device_registry.devices r' =
      [(4242, 1); (4242, 3)].
Proof.
  intros client s. split; [exact registry_ABC_wf|].
  destruct (stale_devices_removed entry client s registry_ABC_wf)
    as (r' & Hrun & _ & Hdev).
  exists r'. split; [exact Hrun|]. split; [reflexivity|].
  rewrite Hdev. vm_compute. reflexivity.
Defined.

End stale_devices_witness.

(** ** Disconnecting *)

Section disconnect_facts.
Import Py disconnect.

Lemma cancel_all_spec ts w :
  let w1 := foldl (fun w t => task_cancel t w) w ts in
  trace w1 = trace w ++ (cancel <$> ts) ∧ state w1 = state w ∧
  ends w1 = ends w ∧ platforms w1 = platforms w ∧ connected w1 = connected w.
Proof.
  revert w. induction ts as [|t ts IH]; intros w; simpl.
  - by rewrite app_nil_r.
  - destruct (IH (task_cancel t w)) as (-> & -> & -> & -> & ->). simpl.
    by rewrite <- app_assoc.
Qed.

Lemma settle_Done t w u :
  state w u = zwave_js.Done → state (settle t w) u = zwave_js.Done.
Proof.
  intros Hu. unfold settle. destruct (state w t) eqn:Ht; try done. simpl.
  case_bool_decide; [congruence | done].
Qed.

Lemma settle_frame t w :
  ends (settle t w) = ends w ∧ platforms (settle t w) = platforms w ∧
  connected (settle t w) = connected w ∧ trace (settle t w) = trace w.
Proof. unfold settle. by destruct (state w t). Qed.

Lemma gather_spec ts w r w' :
  gather ts w = (r, w') →
  ends w' = ends w ∧ platforms w' = platforms w ∧ connected w' = connected w ∧
  (∀ t, state w t = zwave_js.Done → state w' t = zwave_js.Done) ∧
  match r with
  | Ok _ => trace w' = trace w ++ (joined <$> ts) ∧
            ∀ t, t ∈ ts → state w' t = zwave_js.Done
  | Raise _ => ∃ seen, trace w' = trace w ++ (joined <$> seen)
  end.
Proof.
  revert w. induction ts as [|t ts IH]; intros w; simpl.
  - intros [= <- <-]. repeat split; try done.
    + by rewrite app_nil_r.
    + intros t Ht. by apply elem_of_nil in Ht.
  - destruct (settle_frame t w) as (He & Hp & Hc & Ht).
    destruct (state (settle t w) t) eqn:Hst.
    + intros [= <- <-]. rewrite He, Hp, Hc, Ht. repeat split; try done.
      * intros u. apply settle_Done.
      * exists []. by rewrite app_nil_r.
    + intros Hg. apply IH in Hg as (He' & Hp' & Hc' & Hd' & Hr). simpl in *.
      rewrite He', Hp', Hc', He, Hp, Hc. repeat split; try done.
      * intros u Hu. by apply Hd', settle_Done.
      * destruct r as [[]|e].
        -- destruct Hr as [-> Hall]. rewrite Ht, <- app_assoc. split; [done|].
           intros u [->|Hu]%elem_of_cons; [by apply Hd' | by apply Hall].
        -- destruct Hr as [seen ->]. exists (t :: seen).
           by rewrite Ht, <- app_assoc.
    + intros [= <- <-]. rewrite He, Hp, Hc, Ht. repeat split; try done.
      * intros u. apply settle_Done.
      * exists []. by rewrite app_nil_r.
    + intros [= <- <-]. rewrite He, Hp, Hc, Ht. repeat split; try done.
      * intros u. apply settle_Done.
      * exists []. by rewrite app_nil_r.
Qed.

Lemma disconnect_not_cancel_or_joined (ts us : list Task) :
  client_disconnect ∉ (cancel <$> ts) ++ (joined <$> us).
Proof.
  rewrite elem_of_app, !list_elem_of_fmap.
  intros [(t & [=] & _)|(t & [=] & _)].
Qed.

(** C7. Whenever [disconnect_client] calls the transport's [disconnect], it
    has before that called [cancel] on the listen task, on the start-platforms
    task and on every platform-setup task, and [gather] has then seen every
    one of them finished; all of them are finished when [disconnect] is
    called. *)
Theorem disconnect_after_tasks_stopped w r w' evs :
  disconnect_client w = (r, w') →
  trace w' = trace w ++ evs →
  client_disconnect ∈ evs →
  evs = (cancel <$> dependents w) ++ (joined <$> dependents w) ++
        [client_disconnect; LOGGER_info] ∧
  ∀ t, t ∈ dependents w → state w' t = zwave_js.Done.
Proof.
  unfold disconnect_client, dependents.
  set (ts := platform_setup_tasks w).
  change (platform_setup_tasks (task_cancel platform_task (task_cancel listen_task w)))
    with ts.
  destruct (cancel_all_spec (listen_task :: platform_task :: ts) w)
    as (Htr1 & Hst1 & He1 & Hp1 & Hc1). simpl in Htr1, Hst1, He1, Hp1, Hc1.
  set (w1 := foldl (fun w t => task_cancel t w)
               (task_cancel platform_task (task_cancel listen_task w)) ts) in *.
  destruct (gather (listen_task :: platform_task :: ts) w1) as [[[]|e] w2] eqn:Hg;
    apply gather_spec in Hg as (He2 & Hp2 & Hc2 & Hd2 & Hr).
  - destruct Hr as [Htr2 Hall].
    destruct (connected w2) eqn:Hconn.
    + intros [= <- <-] Htr _. simpl in Htr.
      rewrite Htr2, Htr1, <- !app_assoc in Htr.
      apply app_inv_head in Htr. split; [|exact Hall].
      rewrite <- Htr. done.
    + intros [= <- <-] Htr Hin. exfalso.
      rewrite Htr2, Htr1, <- !app_assoc in Htr. apply app_inv_head in Htr.
      rewrite <- Htr in Hin.
      exact (disconnect_not_cancel_or_joined (listen_task :: platform_task :: ts)
               (listen_task :: platform_task :: ts) Hin).
  - destruct Hr as [seen Htr2].
    intros [= <- <-] Htr Hin. exfalso.
    rewrite Htr2, Htr1, <- !app_assoc in Htr. apply app_inv_head in Htr.
    rewrite <- Htr in Hin.
    exact (disconnect_not_cancel_or_joined (listen_task :: platform_task :: ts)
             seen Hin).
Qed.

End disconnect_facts.

Section disconnect_witness.
Import Py disconnect.

(** A session whose listen task is still running and ends its cancellation
    by returning, as [client_listen] does; every other task has finished. *)
Definition settled_world : World :=
  {| state := fun t => match t with
                       | listen_task => zwave_js.Pending
                       | _ => zwave_js.Done
                       end;
     cancel_requested := fun _ => false;
     ends := fun _ => zwave_js.Done;
     platforms := Some ["light"; "sensor"];
     connected := true;
     trace := [] |}.

Lemma disconnect_after_tasks_stopped_witness :
  let w' := (disconnect_client settled_world).2 in
  client_disconnect ∈ trace w' ∧
  trace w' =
    [cancel listen_task; cancel platform_task;
     cancel (setup_task "light"); cancel (setup_task "sensor");
     joined listen_task; joined platform_task;
     joined (setup_task "light"); joined (setup_task "sensor");
     client_disconnect; LOGGER_info] ∧
  ∀ t, t ∈ dependents settled_world → state w' t = zwave_js.Done.
Proof.
  intros w'.
  assert (Hin : client_disconnect ∈ trace w').
  { apply (bool_decide_unpack (client_disconnect ∈ trace w')).
    vm_compute. exact I. }
  split; [exact Hin|].
  destruct (disconnect_after_tasks_stopped settled_world
              (disconnect_client settled_world).1 w' (trace w')
              (surjective_pairing _) eq_refl Hin) as [Hevs Hdone].
  split; [exact Hevs | exact Hdone].
Defined.

(** A platform-setup task that is still pending ends cancelled: [gather]
    raises, and the transport stays connected. *)
Example disconnect_skipped_when_setup_cancelled :
  let w := {| state := fun t => match t with
                                | setup_task "sensor" => zwave_js.Pending
                                | _ => zwave_js.Done
                                end;
              cancel_requested := fun _ => false;
              ends := fun _ => zwave_js.Cancelled;
              platforms := Some ["light"; "sensor"];
              connected := true;
              trace := [] |} in
  (disconnect_client w).1 = Raise CancelledError ∧
  trace (disconnect_client w).2 =
    [cancel listen_task; cancel platform_task;
     cancel (setup_task "light"); cancel (setup_task "sensor");
     joined listen_task; joined platform_task; joined (setup_task "light")].
Proof. split; reflexivity. Qed.

End disconnect_witness.

(** ** The ready handler run on its own *)

Section ready_facts.
Import Py zwave_js.
Variables (entry : ConfigEntry) (client : ZwaveClient).

Definition with_dispatched (l : list Signal) (s : Hass) : Hass :=
  {| dev_reg := dev_reg s; migrated := migrated s;
     platform_setup_tasks := platform_setup_tasks s;
     created_tasks := created_tasks s; dispatched := l;
     fired := fired s; unsubscribe_callbacks := unsubscribe_callbacks s;
     once_ready := once_ready s |}.


Lemma discover_spec d s :
  discover entry d s =
    let s1 := ensure_setup_task (platform d) (async_migrate_discovered_value d s) in
    match platform_setup_tasks s1 !! platform d with
    | Some Done => (Ok tt, async_dispatcher_send (publish entry d) s1)
    | Some Pending =>
        (Ok tt, async_dispatcher_send (publish entry d)
                  (set_task (platform d) Done s1))
    | Some Cancelled => (Raise CancelledError, s1)
    | Some (Failed e) => (Raise e, s1)
    | None => (Raise KeyError, s1)
    end.
Proof.
  unfold discover, mbind, M_bind, modify, await_setup_task. simpl.
  by destruct (platform_setup_tasks _ !! platform d) as [[]|].
Qed.



(** What follows the registration in [async_on_node_ready]. *)
Definition discovery_and_listeners (node : ZwaveNode) : M unit :=
  for_ (async_discover_values node) (discover entry);;
  modify (append_unsubscribe (on_value_notification (node_id node)));;
  modify (append_unsubscribe (on_notification (node_id node))).

Lemma async_on_node_ready_unfold node s :
  async_on_node_ready entry client node s =
    discovery_and_listeners node (register_node_in_dev_reg entry client node s).
Proof. done. Qed.


(** The add_platform signals of a dispatch log: the entities discovered. *)
Definition is_entity_signal (sig : Signal) : bool :=
  match sig with
  | add_platform _ _ _ => true
  | EVENT_DEVICE_ADDED_TO_REGISTRY _ => false
  end.

Definition entity_signals (l : list Signal) : list Signal :=
  filter (fun sig => is_entity_signal sig = true) l.

Lemma registration_frame node s :
  ∃ device r,
    device_registry.async_get_or_create (registration_params entry client node)
      (dev_reg s) = (device, r) ∧
    register_node_in_dev_reg entry client node s =
      with_dispatched (dispatched s ++ [EVENT_DEVICE_ADDED_TO_REGISTRY device])
        (set_dev_reg r s).
Proof.
  unfold register_node_in_dev_reg.
  destruct (device_registry.async_get_or_create _ _) as [device r].
  by exists device, r.
Qed.


Lemma entity_signals_app l1 l2 :
  entity_signals (l1 ++ l2) = entity_signals l1 ++ entity_signals l2.
Proof. apply filter_app. Qed.


Lemma discover_ok d s s' :
  discover entry d s = (Ok tt, s') →
  platform_setup_tasks s' !! platform d = Some Done ∧
  (∀ pf, platform_setup_tasks s !! pf = Some Done →
         platform_setup_tasks s' !! pf = Some Done) ∧
  dev_reg s' = dev_reg s ∧ once_ready s' = once_ready s.
Proof.
  rewrite discover_spec. unfold ensure_setup_task. simpl.
  destruct (platform_setup_tasks s !! platform d) as [[]|] eqn:Hm; simpl;
    rewrite ?Hm, ?lookup_insert_eq; intros [= <-]; simpl;
    rewrite ?lookup_insert_eq; repeat split; try done.
  - intros pf Hpf. destruct (decide (platform d = pf)) as [<-|Hne];
      [by rewrite lookup_insert_eq | by rewrite lookup_insert_ne].
  - intros pf Hpf. destruct (decide (platform d = pf)) as [<-|Hne];
      [by rewrite lookup_insert_eq | by rewrite !lookup_insert_ne].
Qed.

Lemma loop_ok ds s s' :
  for_ ds (discover entry) s = (Ok tt, s') →
  (∀ d, d ∈ ds → platform_setup_tasks s' !! platform d = Some Done) ∧
  (∀ pf, platform_setup_tasks s !! pf = Some Done →
         platform_setup_tasks s' !! pf = Some Done) ∧
  dev_reg s' = dev_reg s ∧ once_ready s' = once_ready s.
Proof.
  revert s. induction ds as [|d ds IH]; intros s; simpl.
  - intros [= <-]. repeat split; try done. intros d Hd. by apply elem_of_nil in Hd.
  - unfold mbind, M_bind.
    destruct (discover entry d s) as [[[]|e] s1] eqn:Hd; [|done].
    intros Hloop. apply discover_ok in Hd as (Hd & Hmono1 & Hreg1 & Honce1).
    apply IH in Hloop as (Hall & Hmono & Hreg & Honce).
    repeat split; [|by auto|congruence|congruence].
    intros d' [->|Hd']%elem_of_cons; auto.
Qed.

(** On a state in which the setup tasks of all the platforms concerned have
    finished, the loop creates nothing, and migrates and publishes every
    descriptor. *)
Lemma loop_all_done ds s :
  (∀ d, d ∈ ds → platform_setup_tasks s !! platform d = Some Done) →
  for_ ds (discover entry) s =
    (Ok tt,
     {| dev_reg := dev_reg s; migrated := migrated s ++ ds;
        platform_setup_tasks := platform_setup_tasks s;
        created_tasks := created_tasks s;
        dispatched := dispatched s ++ (publish entry <$> ds);
        fired := fired s; unsubscribe_callbacks := unsubscribe_callbacks s;
        once_ready := once_ready s |}).
Proof.
  revert s. induction ds as [|d ds IH]; intros s Hall; simpl.
  - unfold mret, M_ret. rewrite !app_nil_r. by destruct s.
  - unfold mbind, M_bind. rewrite discover_spec. unfold ensure_setup_task. simpl.
    rewrite (Hall d) by (by left). simpl. rewrite (Hall d) by (by left).
    rewrite IH by (intros d' Hd'; apply Hall; by right). simpl.
    by rewrite <- !app_assoc.
Qed.

Lemma discovery_and_listeners_once_ready node s :
  once_ready (discovery_and_listeners node s).2 = once_ready s.
Proof.
  unfold discovery_and_listeners, mbind, M_bind, modify.
  assert (Hloop : ∀ ds s, once_ready (for_ ds (discover entry) s).2 = once_ready s).
  { clear. intros ds. induction ds as [|d ds IH]; intros s; simpl; [done|].
    unfold mbind, M_bind. rewrite discover_spec. unfold ensure_setup_task. simpl.
    destruct (platform_setup_tasks s !! platform d) as [[]|] eqn:Hm; simpl;
      rewrite ?Hm, ?lookup_insert_eq; simpl; try done; by rewrite IH. }
  specialize (Hloop (async_discover_values node) s).
  by destruct (for_ _ _ s) as [[[]|e] s1].
Qed.

Lemma ready_handler_once_ready node s :
  once_ready (async_on_node_ready entry client node s).2 = once_ready s.
Proof.
  rewrite async_on_node_ready_unfold, discovery_and_listeners_once_ready.
  destruct (registration_frame node s) as (d & r & _ & ->). done.
Qed.

Lemma waiters_run_once_ready node (ws : list Z) s :
  once_ready (for_ ws (fun _ => async_on_node_ready entry client node) s).2 =
    once_ready s.
Proof.
  revert s. induction ws as [|w ws IH]; intros s; simpl; [done|].
  unfold mbind, M_bind.
  pose proof (ready_handler_once_ready node s) as H1.
  destruct (async_on_node_ready entry client node s) as [[[]|e] s1]; simpl in *;
    [by rewrite IH | done].
Qed.

Lemma filter_absent (ws : list Z) (k : Z) :
  k ∉ ws → filter (fun w => w ≠ k) ws = ws ∧ filter (fun w => w = k) ws = [].
Proof.
  induction ws as [|w ws IH]; [done|].
  intros [Hne Hk]%not_elem_of_cons. destruct (IH Hk) as [IH1 IH2].
  rewrite filter_cons_True by done.
  rewrite (filter_cons_False (fun w => w = k)) by done. by rewrite IH1.
Qed.

(** C2, amended. The ready handler is not idempotent. Its second run for a
    node leaves the device registry, the platform-setup tasks and the tasks
    created as the first run left them, and runs the discovery pass again:
    the device-added signal is sent again, every descriptor is migrated and
    published again, and the two notification listeners are registered
    again. A duplicate ready event, though, calls no handler: the waiter of
    [once] is gone after the first event. *)
Theorem ready_twice_repeats_discovery node s :
  (∀ s1, async_on_node_ready entry client node s = (Ok tt, s1) →
     ∃ s2 device,
       async_on_node_ready entry client node s1 = (Ok tt, s2) ∧
       dev_reg s2 = dev_reg s1 ∧
       platform_setup_tasks s2 = platform_setup_tasks s1 ∧
       created_tasks s2 = created_tasks s1 ∧
       migrated s2 = migrated s1 ++ async_discover_values node ∧
       dispatched s2 =
         dispatched s1 ++ EVENT_DEVICE_ADDED_TO_REGISTRY device ::
           (publish entry <$> async_discover_values node) ∧
       unsubscribe_callbacks s2 =
         unsubscribe_callbacks s1 ++
           [on_value_notification (node_id node); on_notification (node_id node)]) ∧
  (∀ r s1, emit_ready entry client node s = (r, s1) →
     emit_ready entry client node s1 = (Ok tt, s1)).
Proof.
  split.
  - intros s1 H1. rewrite async_on_node_ready_unfold in H1.
    unfold discovery_and_listeners, mbind, M_bind, modify in H1.
    destruct (for_ _ _ (register_node_in_dev_reg entry client node s))
      as [[[]|e] s1'] eqn:Hloop; [|done].
    injection H1 as <-.
    apply loop_ok in Hloop as (Hall & _ & Hreg & _).
    destruct (registration_frame node s) as (d0 & r0 & Hgoc0 & Hs0).
    rewrite Hs0 in Hreg. simpl in Hreg.
    set (s1 := append_unsubscribe (on_notification (node_id node))
                 (append_unsubscribe (on_value_notification (node_id node)) s1')).
    destruct (registration_frame node s1) as (d1 & r1 & Hgoc1 & Hs1).
    assert (Hr1 : r1 = dev_reg s1).
    { change (dev_reg s1) with (dev_reg s1') in *. rewrite Hreg in *.
      pose proof (get_or_create_twice
                    (registration_params entry client node)
                    (registration_params entry client node) (dev_reg s) eq_refl) as Ht.
      rewrite Hgoc0 in Ht. simpl in Ht. rewrite Hgoc1 in Ht. congruence. }
    exists (append_unsubscribe (on_notification (node_id node))
              (append_unsubscribe (on_value_notification (node_id node))
                 {| dev_reg := dev_reg s1; migrated := migrated s1 ++ async_discover_values node;
                    platform_setup_tasks := platform_setup_tasks s1;
                    created_tasks := created_tasks s1;
                    dispatched := (dispatched s1 ++ [EVENT_DEVICE_ADDED_TO_REGISTRY d1]) ++
                                  (publish entry <$> async_discover_values node);
                    fired := fired s1;
                    unsubscribe_callbacks := unsubscribe_callbacks s1;
                    once_ready := once_ready s1 |})), d1.
    split.
    + rewrite async_on_node_ready_unfold, Hs1, Hr1.
      unfold discovery_and_listeners, mbind, M_bind, modify.
      rewrite loop_all_done by exact Hall. done.
    + simpl. repeat split; try done.
      * by rewrite <- !app_assoc.
      * by rewrite <- !app_assoc.
  - intros r s1 H1. unfold emit_ready, mbind, M_bind, modify, get in *.
    assert (Hk : node_id node ∉ once_ready s1).
    { pose proof (waiters_run_once_ready node
        (filter (fun w => w = node_id node) (once_ready s))
        (set_once_ready (filter (fun w => w ≠ node_id node) (once_ready s)) s)) as Ho.
      rewrite H1 in Ho. simpl in Ho. rewrite Ho.
      intros [Hne _]%list_elem_of_filter. done. }
    destruct (filter_absent _ _ Hk) as [-> ->]. simpl.
    unfold mret, M_ret. by destruct s1.
Qed.

End ready_facts.

Section ready_witnesses.
Import Py zwave_js sample.

Definition fresh_session : Hass := initial device_registry.empty.

(** C2, counterexample. Two runs of the ready handler for node B, one after
    the other, send the device-added signal twice and run two discovery
    passes, the descriptor of the node being migrated and published twice. *)
Lemma ready_twice_two_passes :
  let client := client_of [node_B] in
  ∃ s1 s2 device,
    async_on_node_ready entry client node_B fresh_session = (Ok tt, s1) ∧
    async_on_node_ready entry client node_B s1 = (Ok tt, s2) ∧
    dispatched s1 =
      [EVENT_DEVICE_ADDED_TO_REGISTRY device; add_platform "entry-1" "light" (light 2)] ∧
    dispatched s2 =
      [EVENT_DEVICE_ADDED_TO_REGISTRY device; add_platform "entry-1" "light" (light 2);
       EVENT_DEVICE_ADDED_TO_REGISTRY device; add_platform "entry-1" "light" (light 2)] ∧
    migrated s2 = [light 2; light 2] ∧
    device_registry.devices (dev_reg s2) = [device] ∧
    created_tasks s2 = ["light"].
Proof.
  intros client. do 3 eexists.
  split; [vm_compute; reflexivity|].
  split; [vm_compute; reflexivity|].
  repeat split.
Qed.

Lemma ready_twice_repeats_discovery_witness :
  let client := client_of [node_B] in
  let s1 := (async_on_node_ready entry client node_B fresh_session).2 in
  async_on_node_ready entry client node_B fresh_session = (Ok tt, s1) ∧
  ∃ s2 device,
    async_on_node_ready entry client node_B s1 = (Ok tt, s2) ∧
    dev_reg s2 = dev_reg s1 ∧
    created_tasks s2 = created_tasks s1 ∧
    dispatched s2 =
      dispatched s1 ++ [EVENT_DEVICE_ADDED_TO_REGISTRY device;
                        add_platform "entry-1" "light" (light 2)].
Proof.
  intros client s1.
  assert (H1 : async_on_node_ready entry client node_B fresh_session = (Ok tt, s1))
    by (vm_compute; reflexivity).
  split; [exact H1|].
  destruct (proj1 (ready_twice_repeats_discovery entry client node_B fresh_session)
              s1 H1) as (s2 & device & H2 & Hreg & _ & Hcr & _ & Hdisp & _).
  exists s2, device. repeat split; assumption.
Defined.


(** The placeholder record of node B is overwritten when it is ready. *)
Example added_then_ready_registry :
  let client := client_of [node_B] in
  (device_registry.name <$>
     device_registry.devices
       (dev_reg (async_on_node_added entry client node_B_added fresh_session).2),
   device_registry.name <$>
     device_registry.devices
       (dev_reg ((async_on_node_added entry client node_B_added;;
                  emit_ready entry client node_B) fresh_session).2)) =
  (["Node 2"], ["Dimmer"]).
Proof. vm_compute. reflexivity. Qed.

End ready_witnesses.

(** ** Discovery passes that interleave *)

Section interleaving_facts.
Import Py zwave_js.
Variables (entry : ConfigEntry) (client : ZwaveClient).

(** What every state of a session satisfies: the setup tasks created are the
    keys of the task map, each created once, and a platform for which an
    entity was published has a finished setup task. *)
Definition setup_once (h : Hass) : Prop :=
  NoDup (created_tasks h) ∧
  (∀ pf, pf ∈ created_tasks h ↔ is_Some (platform_setup_tasks h !! pf)) ∧
  (∀ e pf d, add_platform e pf d ∈ dispatched h →
             platform_setup_tasks h !! pf = Some Done).

Lemma setup_once_initial r : setup_once (initial r).
Proof.
  split; [|split]; simpl.
  - apply NoDup_nil_2.
  - intros pf. rewrite lookup_empty. split.
    + intros H. by apply elem_of_nil in H.
    + by intros [? ?].
  - intros e pf d H. by apply elem_of_nil in H.
Qed.

Lemma setup_once_register node h :
  setup_once h → setup_once (register_node_in_dev_reg entry client node h).
Proof.
  intros (Hnd & Hdom & Hpub). unfold register_node_in_dev_reg.
  destruct (device_registry.async_get_or_create _ _) as [device r].
  split; [|split]; simpl; [done|done|].
  intros e pf d [H|H]%elem_of_app; [by eapply Hpub|].
  apply list_elem_of_singleton in H. done.
Qed.

Lemma setup_once_migrate d h :
  setup_once h → setup_once (async_migrate_discovered_value d h).
Proof. intros (Hnd & Hdom & Hpub). by split; [|split]. Qed.

Lemma setup_once_ensure pf h :
  setup_once h → setup_once (ensure_setup_task pf h).
Proof.
  intros (Hnd & Hdom & Hpub). unfold ensure_setup_task.
  destruct (platform_setup_tasks h !! pf) as [st|] eqn:Hpf; [done|].
  assert (Hfresh : pf ∉ created_tasks h).
  { rewrite Hdom, Hpf. by intros [? ?]. }
  split; [|split]; simpl.
  - apply NoDup_app. split; [done|]. split; [|apply NoDup_singleton].
    intros x Hx ->%list_elem_of_singleton. done.
  - intros pf'. rewrite elem_of_app, list_elem_of_singleton.
    destruct (decide (pf = pf')) as [->|Hne].
    + rewrite lookup_insert_eq. split; [by eauto | by right].
    + rewrite lookup_insert_ne by done. rewrite Hdom. split; [|by left].
      intros [H| ->]; done.
  - intros e pf' d H. pose proof (Hpub e pf' d H) as Hd.
    destruct (decide (pf = pf')) as [->|Hne]; [congruence|].
    by rewrite lookup_insert_ne.
Qed.

Lemma setup_once_publish d h :
  setup_once h → platform_setup_tasks h !! platform d = Some Done →
  setup_once (async_dispatcher_send (publish entry d) h).
Proof.
  intros (Hnd & Hdom & Hpub) Hd. split; [|split]; simpl; [done|done|].
  intros e pf d' [H|H]%elem_of_app; [by eapply Hpub|].
  apply list_elem_of_singleton in H. by injection H as -> -> ->.
Qed.

Lemma setup_once_finish pf st h :
  setup_once h → platform_setup_tasks h !! pf = Some Pending →
  setup_once (set_task pf st h).
Proof.
  intros (Hnd & Hdom & Hpub) Hpf. split; [|split]; simpl; [done| |].
  - intros pf'. rewrite Hdom. destruct (decide (pf = pf')) as [->|Hne].
    + rewrite lookup_insert_eq, Hpf. split; eauto.
    + by rewrite lookup_insert_ne.
  - intros e pf' d H. pose proof (Hpub e pf' d H) as Hd.
    destruct (decide (pf = pf')) as [->|Hne]; [congruence|].
    by rewrite lookup_insert_ne.
Qed.

Lemma setup_once_listeners l h : setup_once h → setup_once (append_unsubscribe l h).
Proof. intros (Hnd & Hdom & Hpub). by split; [|split]. Qed.

Lemma setup_once_loop node ds h :
  setup_once h → setup_once (discovery_loop entry node ds h).2.
Proof.
  revert h. induction ds as [|d ds IH]; intros h Hinv; simpl.
  - by do 2 apply setup_once_listeners.
  - pose proof (setup_once_ensure (platform d) _ (setup_once_migrate d h Hinv)) as H1.
    destruct (platform_setup_tasks _ !! platform d) as [[]|] eqn:Hpf; simpl; try done.
    apply IH. by apply setup_once_publish.
Qed.

Lemma setup_once_resume co h :
  setup_once h → setup_once (resume entry client co h).2.
Proof.
  intros Hinv. destruct co as [node|node d rest| |e]; simpl; try done.
  - by apply setup_once_loop, setup_once_register.
  - destruct (platform_setup_tasks h !! platform d) as [[]|] eqn:Hpf; simpl; try done.
    apply setup_once_loop. by apply setup_once_publish.
Qed.

Lemma setup_once_step c l :
  setup_once (hass l) → setup_once (hass (step entry client c l)).
Proof.
  intros Hinv. destruct c as [node|i|pf st]; simpl; try done.
  - destruct (coroutines l !! i) as [co|]; [|done].
    pose proof (setup_once_resume co (hass l) Hinv) as H.
    by destruct (resume entry client co (hass l)).
  - destruct (platform_setup_tasks (hass l) !! pf) as [[]|] eqn:Hpf; try done.
    destruct st; try done; simpl; by apply setup_once_finish.
Qed.

Lemma setup_once_run schedule l :
  setup_once (hass l) → setup_once (hass (run entry client schedule l)).
Proof.
  revert l. induction schedule as [|c schedule IH]; intros l Hinv; [done|].
  simpl. by apply IH, setup_once_step.
Qed.

(** C3. Whatever the event loop does in a session (starting discovery passes
    for nodes, resuming them, letting setup tasks finish, fail or be
    cancelled, in any order), each platform has at most one setup task
    created for it, the tasks created being the keys of the task map; a pass
    that comes to a platform already in the map creates no task; and an
    entity is published for a platform only once the platform's setup task
    has finished. *)
Theorem platform_setup_once r schedule :
  let h := hass (run entry client schedule (session_start r)) in
  NoDup (created_tasks h) ∧
  (∀ pf, pf ∈ created_tasks h ↔ is_Some (platform_setup_tasks h !! pf)) ∧
  (∀ pf, is_Some (platform_setup_tasks h !! pf) → ensure_setup_task pf h = h) ∧
  (∀ d, publish entry d ∈ dispatched h →
        platform_setup_tasks h !! platform d = Some Done).
Proof.
  intros h.
  destruct (setup_once_run schedule (session_start r) (setup_once_initial r))
    as (Hnd & Hdom & Hpub).
  split; [done|]. split; [done|]. split.
  - intros pf [st Hst]. unfold ensure_setup_task. fold h. by rewrite Hst.
  - intros d Hd. by eapply Hpub.
Qed.

(** *** A pass on its own

    The event loop drives one coroutine: whenever it is suspended on a
    pending setup task, that task finishes and the coroutine is resumed. *)
Fixpoint drive (fuel : nat) (r : Coroutine * Hass) : Coroutine * Hass :=
  match fuel, r with
  | S k, (Awaiting node d rest, h) =>
      drive k (resume entry client (Awaiting node d rest)
                 (set_task (platform d) Done h))
  | _, _ => r
  end.

Definition outcome (r : Result unit * Hass) : Coroutine * Hass :=
  match r with
  | (Ok _, h) => (Returned, h)
  | (Raise e, h) => (Raised e, h)
  end.

Lemma drive_loop node (ds : list DiscoveryInfo) (fuel : nat) h :
  (List.length ds ≤ fuel)%nat →
  drive fuel (discovery_loop entry node ds h) =
    outcome ((for_ ds (discover entry);;
              modify (append_unsubscribe (on_value_notification (node_id node)));;
              modify (append_unsubscribe (on_notification (node_id node)))) h).
Proof.
  revert fuel h. induction ds as [|d ds IH]; intros fuel h Hfuel.
  - simpl. by destruct fuel.
  - cbn [discovery_loop for_]. unfold mbind, M_bind in *.
    rewrite discover_spec. cbn zeta.
    destruct (platform_setup_tasks _ !! platform d) as [[]|] eqn:Hpf.
    + destruct fuel as [|fuel]; [simpl in Hfuel; lia|].
      cbn [drive resume platform_setup_tasks set_task].
      rewrite lookup_insert_eq. apply IH. simpl in Hfuel. lia.
    + apply IH. simpl in Hfuel. lia.
    + by destruct fuel.
    + by destruct fuel.
    + by destruct fuel.
Qed.

(** Driven on its own, the coroutine of the ready handler ends as the
    handler run in one go does. *)
Lemma drive_ready node h :
  drive (List.length (async_discover_values node))
    (resume entry client (NotStarted node) h) =
    outcome (async_on_node_ready entry client node h).
Proof. by apply drive_loop. Qed.

End interleaving_facts.

Section interleaving_examples.
Import Py zwave_js sample.

(** Nodes A and B both have a light; their passes start together. The pass
    of A creates the task of the light platform, the pass of B waits for the
    same task, and both publish once it has finished. *)
Example two_nodes_one_platform :
  let client := client_of [node_A; node_B] in
  let l := run entry client
             [Spawn node_A; Spawn node_B; Resume 0; Resume 1;
              Finish "light" Done; Resume 1; Resume 0;
              Finish "sensor" Done; Resume 0]%nat
             (session_start device_registry.empty) in
  created_tasks (hass l) = ["light"; "sensor"] ∧
  entity_signals (dispatched (hass l)) =
    [add_platform "entry-1" "light" (light 2);
     add_platform "entry-1" "light" (light 1);
     add_platform "entry-1" "sensor" (sensor 1)] ∧
  coroutines l = [Returned; Returned].
Proof. vm_compute. repeat split. Qed.

(** While the setup task is pending both passes are suspended on it and
    nothing is published. *)
Example two_nodes_waiting :
  let client := client_of [node_A; node_B] in
  let l := run entry client
             [Spawn node_A; Spawn node_B; Resume 0; Resume 1; Resume 0; Resume 1]%nat
             (session_start device_registry.empty) in
  created_tasks (hass l) = ["light"] ∧
  entity_signals (dispatched (hass l)) = [] ∧
  coroutines l = [Awaiting node_A (light 1) [sensor 1]; Awaiting node_B (light 2) []].
Proof. vm_compute. repeat split. Qed.

(** A cancelled setup task ends the passes that wait for it. *)
Example two_nodes_cancelled :
  let client := client_of [node_A; node_B] in
  let l := run entry client
             [Spawn node_A; Spawn node_B; Resume 0; Resume 1;
              Finish "light" Cancelled; Resume 0; Resume 1]%nat
             (session_start device_registry.empty) in
  created_tasks (hass l) = ["light"] ∧
  entity_signals (dispatched (hass l)) = [] ∧
  coroutines l = [Raised CancelledError; Raised CancelledError].
Proof. vm_compute. repeat split. Qed.

End interleaving_examples.

(** * Further properties *)

(** ** Registration of a node *)

Section registration_facts.
Import Py zwave_js.
Variables (entry : ConfigEntry) (client : ZwaveClient).


(** After an upsert the lookup of the identity gives the record upserted. *)
Lemma upsert_lookup p n l :
  let '(l', d, fresh) := device_registry.upsert p n l in
  head (filter (fun x => device_registry.identifier x = device_registry.p_identifier p) l')
    = Some d ∧
  device_registry.config_entry_id d = device_registry.p_config_entry_id p ∧
  device_registry.sw_version d = device_registry.p_sw_version p ∧
  device_registry.name d = device_registry.p_name p ∧
  device_registry.model d = device_registry.p_model p ∧
  device_registry.manufacturer d = device_registry.p_manufacturer p ∧
  device_registry.suggested_area d = device_registry.p_suggested_area p.
Proof.
  induction l as [|x l IH]; simpl.
  - rewrite filter_cons_True by done. done.
  - destruct (decide (device_registry.identifier x = device_registry.p_identifier p))
      as [Hx|Hx].
    + rewrite filter_cons_True by done. done.
    + destruct (device_registry.upsert p n l) as [[l' d] fresh].
      rewrite filter_cons_False by done. done.
Qed.


End registration_facts.

(** ** Adding and removing nodes *)

Section add_remove_facts.
Import Py zwave_js.
Variables (entry : ConfigEntry) (client : ZwaveClient).

Lemma NoDup_fmap_eq {A B} (f : A → B) (l : list A) x y :
  NoDup (f <$> l) → x ∈ l → y ∈ l → f x = f y → x = y.
Proof.
  intros Hnd [i Hi]%list_elem_of_lookup [j Hj]%list_elem_of_lookup Hf.
  assert (i = j) as <-; [|congruence].
  eapply NoDup_lookup; [exact Hnd| |].
  - by rewrite list_lookup_fmap, Hi.
  - by rewrite list_lookup_fmap, Hj, Hf.
Qed.

Lemma upsert_others p n l :
  filter (fun x => device_registry.identifier x ≠ device_registry.p_identifier p)
    (device_registry.upsert p n l).1.1 =
  filter (fun x => device_registry.identifier x ≠ device_registry.p_identifier p) l.
Proof.
  induction l as [|x l IH]; simpl.
  - rewrite filter_cons_False; [done|]. simpl. tauto.
  - destruct (decide (device_registry.identifier x = device_registry.p_identifier p))
      as [Hx|Hx]; simpl.
    + rewrite !filter_cons_False; [done|tauto|simpl; tauto].
    + destruct (device_registry.upsert p n l) as [[l' d] fresh]. simpl in *.
      rewrite !filter_cons_True by done. by rewrite IH.
Qed.

(** The discovery loop touches neither the device registry, nor the ready
    waiters, the bus or the listeners, however it ends. *)
Lemma loop_frame ds s :
  let s' := (for_ ds (discover entry) s).2 in
  dev_reg s' = dev_reg s ∧ once_ready s' = once_ready s ∧
  fired s' = fired s ∧ unsubscribe_callbacks s' = unsubscribe_callbacks s.
Proof.
  revert s. induction ds as [|d ds IH]; intros s; simpl; [done|].
  unfold mbind, M_bind. rewrite discover_spec. unfold ensure_setup_task. simpl.
  destruct (platform_setup_tasks s !! platform d) as [[]|] eqn:Hm; simpl;
    rewrite ?Hm, ?lookup_insert_eq; simpl; try done;
    match goal with |- context [for_ ds _ ?x] => destruct (IH x) as (-> & -> & -> & ->) end;
    done.
Qed.

Lemma added_dev_reg node s :
  dev_reg (async_on_node_added entry client node s).2 =
    (device_registry.async_get_or_create (registration_params entry client node)
       (dev_reg s)).2.
Proof.
  assert (Hreg : ∀ s0, dev_reg (register_node_in_dev_reg entry client node s0) =
            (device_registry.async_get_or_create
               (registration_params entry client node) (dev_reg s0)).2).
  { intros s0. unfold register_node_in_dev_reg.
    by destruct (device_registry.async_get_or_create _ _). }
  unfold async_on_node_added. destruct (ready node).
  - rewrite async_on_node_ready_unfold.
    unfold discovery_and_listeners, mbind, M_bind, modify.
    pose proof (loop_frame (async_discover_values node)
                  (register_node_in_dev_reg entry client node s)) as (Hd & _).
    destruct (for_ _ _ _) as [[[]|e] s1]; simpl in *; by rewrite Hd, Hreg.
  - unfold mbind, M_bind, modify. simpl. by rewrite Hreg.
Qed.

(** Removing the device found for an identity leaves the devices of the
    other identities, in a registry whose ids and identities are unique. *)
Lemma remove_found_device gid r d :
  device_registry.wf r →
  device_registry.async_get_device gid r = Some d →
  device_registry.devices
    (device_registry.async_remove_device (device_registry.id d) r) =
    filter (fun x => device_registry.identifier x ≠ gid) (device_registry.devices r).
Proof.
  intros (Hid & Hident & _) Hd. simpl.
  apply get_device_Some in Hd as [Hin Hgid].
  apply filter_agree. intros x Hx. split.
  - intros Hne Hi. apply Hne. f_equal.
    eapply (NoDup_fmap_eq device_registry.identifier); [exact Hident|done|done|congruence].
  - intros Hne Hi. apply Hne.
    rewrite (NoDup_fmap_eq device_registry.id _ x d Hid Hx Hin Hi). done.
Qed.

(** Removing a node removes the device with its identity and no other: the
    devices left are those of the other identities, unchanged and in place.
    The registry's ids and identities are unique. *)
Theorem node_removed_only_its_device node s d :
  device_registry.wf (dev_reg s) →
  device_registry.async_get_device (get_device_id client node) (dev_reg s) = Some d →
  ∃ r',
    async_on_node_removed client node s = (Ok tt, set_dev_reg r' s) ∧
    device_registry.wf r' ∧
    device_registry.devices r' =
      filter (fun x => device_registry.identifier x ≠ get_device_id client node)
        (device_registry.devices (dev_reg s)).
Proof.
  intros Hwf Hd.
  unfold async_on_node_removed, mbind, M_bind, get, modify. simpl. rewrite Hd.
  eexists. split; [reflexivity|]. split; [by apply wf_remove|].
  by apply remove_found_device.
Qed.

(** A node that was added can be removed: the removal succeeds, no device is
    left for the node, and the devices of the other identities are as they
    were before the node was added. *)
Theorem added_then_removed node s s1 :
  device_registry.wf (dev_reg s) →
  async_on_node_added entry client node s = (Ok tt, s1) →
  ∃ s2,
    async_on_node_removed client node s1 = (Ok tt, s2) ∧
    device_registry.async_get_device (get_device_id client node) (dev_reg s2) = None ∧
    device_registry.devices (dev_reg s2) =
      filter (fun x => device_registry.identifier x ≠ get_device_id client node)
        (device_registry.devices (dev_reg s)).
Proof.
  intros Hwf Hadd.
  pose proof (added_dev_reg node s) as Hreg. rewrite Hadd in Hreg. simpl in Hreg.
  assert (Hwf1 : device_registry.wf (dev_reg s1))
    by (rewrite Hreg; by apply wf_get_or_create).
  assert (∃ d, device_registry.async_get_device (get_device_id client node)
                 (dev_reg s1) = Some d) as [d Hd].
  { rewrite Hreg. unfold device_registry.async_get_or_create,
      device_registry.async_get_device.
    pose proof (upsert_lookup (registration_params entry client node)
                  (device_registry.next_id (dev_reg s))
                  (device_registry.devices (dev_reg s))) as Hup.
    destruct (device_registry.upsert _ _ _) as [[l d] fresh].
    exists d. simpl. apply Hup. }
  pose proof (remove_found_device _ _ _ Hwf1 Hd) as Hdev.
  eexists. split.
  { unfold async_on_node_removed, mbind, M_bind, get, modify. simpl.
    rewrite Hd. reflexivity. }
  simpl in Hdev |- *. split.
  - apply get_device_None. simpl. rewrite Hdev. intros Hin.
    apply list_elem_of_fmap in Hin as (x & Hx & Hin).
    apply list_elem_of_filter in Hin as [Hne _]. by apply Hne.
  - rewrite Hdev, Hreg. unfold device_registry.async_get_or_create.
    pose proof (upsert_others (registration_params entry client node)
                  (device_registry.next_id (dev_reg s))
                  (device_registry.devices (dev_reg s))) as Ho.
    by destruct (device_registry.upsert _ _ _) as [[l d'] fresh].
Qed.

End add_remove_facts.

Section add_remove_witnesses.
Import Py zwave_js sample.

Lemma node_removed_only_its_device_witness :
  let client := client_of [node_A; node_C] in
  let s := initial registry_ABC in
  ∃ d r',
    device_registry.async_get_device (get_device_id client node_B) (dev_reg s) = Some d ∧
    async_on_node_removed client node_B s = (Ok tt, set_dev_reg r' s) ∧
    device_registry.identifier <$> device_registry.devices r' = [(4242, 1); (4242, 3)].
Proof.
  intros client s.
  assert (∃ d, device_registry.async_get_device (get_device_id client node_B)
                 (dev_reg s) = Some d) as [d Hd] by (eexists; reflexivity).
  destruct (node_removed_only_its_device client node_B s d registry_ABC_wf Hd)
    as (r' & Hrm & _ & Hdev).
  exists d, r'. split; [exact Hd|]. split; [exact Hrm|].
  rewrite Hdev. vm_compute. reflexivity.
Defined.

Lemma added_then_removed_witness :
  let client := client_of [node_A; node_B; node_C] in
  let s := initial (device_registry.async_remove_device 1 registry_ABC) in
  let s1 := (async_on_node_added entry client node_B s).2 in
  async_on_node_added entry client node_B s = (Ok tt, s1) ∧
  ∃ s2,
    async_on_node_removed client node_B s1 = (Ok tt, s2) ∧
    device_registry.devices (dev_reg s2) = device_registry.devices (dev_reg s).
Proof.
  intros client s s1.
  assert (Hadd : async_on_node_added entry client node_B s = (Ok tt, s1))
    by (vm_compute; reflexivity).
  split; [exact Hadd|].
  assert (Hwf : device_registry.wf (dev_reg s)).
  { apply (bool_decide_unpack (device_registry.wf (dev_reg s))). vm_compute. exact I. }
  destruct (added_then_removed entry client node_B s s1 Hwf Hadd)
    as (s2 & Hrm & _ & Hdev).
  exists s2. split; [exact Hrm|]. rewrite Hdev. vm_compute. reflexivity.
Defined.

End add_remove_witnesses.

(** ** A discovery pass *)

Section pass_facts.
Import Py zwave_js.
Variables (entry : ConfigEntry) (client : ZwaveClient).

(** However the loop ends, it has migrated and published the descriptors in
    the order of discovery: all of them when it returns; when it raises, the
    descriptor it stopped at was migrated and not published. *)
Lemma loop_in_order ds s :
  let '(r, s') := for_ ds (discover entry) s in
  ∃ k,
    dispatched s' = dispatched s ++ (publish entry <$> take k ds) ∧
    match r with
    | Ok _ => k = length ds ∧ migrated s' = migrated s ++ ds
    | Raise _ => (k < length ds)%nat ∧ migrated s' = migrated s ++ take (S k) ds
    end.
Proof.
  revert s. induction ds as [|d ds IH]; intros s; simpl.
  - exists 0%nat. by rewrite !app_nil_r.
  - unfold mbind, M_bind. rewrite discover_spec. unfold ensure_setup_task. simpl.
    destruct (platform_setup_tasks s !! platform d) as [[]|] eqn:Hm; simpl;
      rewrite ?Hm, ?lookup_insert_eq; simpl;
      try (exists 0%nat; simpl; rewrite ?app_nil_r; split; [done|split; [lia|done]]);
      match goal with |- context [for_ ds _ ?x] =>
        specialize (IH x); destruct (for_ ds _ x) as [r s'] end;
      destruct IH as (k & Hdisp & Hr); exists (S k); simpl in *;
      rewrite Hdisp, <- !app_assoc; (split; [done|]);
      destruct r; destruct Hr as [Hk ->]; rewrite <- ?app_assoc;
      (split; [lia|done]).
Qed.

(** When the ready handler returns, it has sent the device-added signal and
    then published every descriptor of the node once, in the order of
    discovery, and registered the two notification listeners of the node.
    When it raises, it has published fewer descriptors than the node has and
    registered no listener. *)
Theorem ready_publishes_in_order node s :
  let '(r, s') := async_on_node_ready entry client node s in
  ∃ device k,
    dispatched s' =
      dispatched s ++ EVENT_DEVICE_ADDED_TO_REGISTRY device ::
        (publish entry <$> take k (async_discover_values node)) ∧
    match r with
    | Ok _ =>
        k = length (async_discover_values node) ∧
        unsubscribe_callbacks s' =
          unsubscribe_callbacks s ++
            [on_value_notification (node_id node); on_notification (node_id node)]
    | Raise _ =>
        (k < length (async_discover_values node))%nat ∧
        unsubscribe_callbacks s' = unsubscribe_callbacks s
    end.
Proof.
  rewrite async_on_node_ready_unfold.
  destruct (registration_frame entry client node s) as (d0 & r0 & _ & Hs0).
  unfold discovery_and_listeners, mbind, M_bind, modify.
  pose proof (loop_in_order (async_discover_values node)
                (register_node_in_dev_reg entry client node s)) as Hloop.
  pose proof (loop_frame entry (async_discover_values node)
                (register_node_in_dev_reg entry client node s)) as (_ & _ & _ & Hu).
  destruct (for_ _ _ _) as [[[]|e] s1]; simpl in *;
    destruct Hloop as (k & Hdisp & Hk & _); exists d0, k;
    rewrite Hdisp, Hu, Hs0; simpl; rewrite <- ?app_assoc; (split; [done|]);
    (split; [done|]); by rewrite <- ?app_assoc.
Qed.

End pass_facts.

(** ** Starting the platforms *)

Section start_facts.
Import Py zwave_js.
Variables (entry : ConfigEntry) (client : ZwaveClient).

(** No platform-setup task has failed or been cancelled. *)
Definition healthy (s : Hass) : Prop :=
  ∀ pf st, platform_setup_tasks s !! pf = Some st → st = Pending ∨ st = Done.

Lemma healthy_initial r : healthy (initial r).
Proof. intros pf st. simpl. by rewrite lookup_empty. Qed.

Lemma discover_healthy d s :
  healthy s → ∃ s', discover entry d s = (Ok tt, s') ∧ healthy s'.
Proof.
  intros Hh. rewrite discover_spec. unfold ensure_setup_task. simpl.
  destruct (platform_setup_tasks s !! platform d) as [st|] eqn:Hm; simpl.
  - rewrite Hm. destruct (Hh _ _ Hm) as [-> | ->]; eexists; (split; [reflexivity|]).
    + intros pf st. simpl. destruct (decide (platform d = pf)) as [<-|Hne].
      * rewrite lookup_insert_eq. intros [= <-]. by right.
      * rewrite lookup_insert_ne by done. apply Hh.
    + exact Hh.
  - rewrite lookup_insert_eq. eexists. split; [reflexivity|].
    intros pf st. simpl. destruct (decide (platform d = pf)) as [<-|Hne].
    + rewrite lookup_insert_eq. intros [= <-]. by right.
    + rewrite !lookup_insert_ne by done. apply Hh.
Qed.

Lemma loop_healthy ds s :
  healthy s → ∃ s', for_ ds (discover entry) s = (Ok tt, s') ∧ healthy s'.
Proof.
  revert s. induction ds as [|d ds IH]; intros s Hh; simpl.
  - by exists s.
  - unfold mbind, M_bind. destruct (discover_healthy d s Hh) as (s1 & -> & Hh1).
    by apply IH.
Qed.

(** What [async_on_node_added] does to the registry, the ready waiters and
    the signals, when no setup task has failed. *)
Lemma added_healthy node s :
  healthy s →
  ∃ s', async_on_node_added entry client node s = (Ok tt, s') ∧ healthy s' ∧
        dev_reg s' =
          (device_registry.async_get_or_create
             (registration_params entry client node) (dev_reg s)).2 ∧
        once_ready s' =
          once_ready s ++ (if ready node then [] else [node_id node]) ∧
        entity_signals (dispatched s') =
          entity_signals (dispatched s) ++
            (if ready node then publish entry <$> async_discover_values node else []).
Proof.
  intros Hh.
  pose proof (added_dev_reg entry client node s) as Hreg.
  destruct (registration_frame entry client node s) as (d0 & r0 & _ & Hs0).
  unfold async_on_node_added in *. destruct (ready node).
  - rewrite async_on_node_ready_unfold in *.
    unfold discovery_and_listeners, mbind, M_bind, modify in *.
    assert (Hh0 : healthy (register_node_in_dev_reg entry client node s))
      by (by rewrite Hs0).
    destruct (loop_healthy (async_discover_values node) _ Hh0) as (s1 & Hloop & Hh1).
    pose proof (loop_frame entry (async_discover_values node)
                  (register_node_in_dev_reg entry client node s)) as (_ & Ho & _).
    pose proof (loop_in_order entry (async_discover_values node)
                  (register_node_in_dev_reg entry client node s)) as Hord.
    rewrite Hloop in *. simpl in *.
    destruct Hord as (k & Hdisp & -> & _). rewrite firstn_all in Hdisp.
    eexists. split; [reflexivity|]. simpl. split; [exact Hh1|].
    split; [exact Hreg|]. split.
    + rewrite Ho, Hs0. simpl. by rewrite app_nil_r.
    + rewrite Hdisp, Hs0. simpl. rewrite !entity_signals_app. f_equal.
      * by rewrite app_nil_r.
      * clear. induction (async_discover_values node) as [|d ds IH]; [done|].
        rewrite fmap_cons. unfold entity_signals in *.
        rewrite filter_cons_True by done. by rewrite IH.
  - unfold mbind, M_bind, modify in *. simpl in *.
    eexists. split; [reflexivity|]. split.
    { unfold register_node_in_dev_reg. simpl.
      by destruct (device_registry.async_get_or_create _ _). }
    split; [exact Hreg|]. split.
    + unfold register_node_in_dev_reg. simpl.
      by destruct (device_registry.async_get_or_create _ _).
    + unfold register_node_in_dev_reg. simpl.
      destruct (device_registry.async_get_or_create _ _). simpl.
      by rewrite entity_signals_app.
Qed.

(** The registry after the nodes [ns] have been registered in turn. *)
Definition register_all (ns : list ZwaveNode) (r : device_registry.t)
  : device_registry.t :=
  foldl (fun r n =>
           (device_registry.async_get_or_create
              (registration_params entry client n) r).2) r ns.

Lemma added_all ns s :
  healthy s →
  ∃ s', for_ ns (async_on_node_added entry client) s = (Ok tt, s') ∧ healthy s' ∧
        dev_reg s' = register_all ns (dev_reg s) ∧
        once_ready s' =
          once_ready s ++ (node_id <$> filter (fun n => ready n = false) ns) ∧
        entity_signals (dispatched s') =
          entity_signals (dispatched s) ++
            (n ← filter (fun n => ready n = true) ns;
             publish entry <$> async_discover_values n).
Proof.
  revert s. induction ns as [|n ns IH]; intros s Hh; simpl.
  - exists s. by rewrite !app_nil_r.
  - unfold mbind at 1, M_bind at 1.
    destruct (added_healthy n s Hh) as (s1 & -> & Hh1 & Hreg1 & Ho1 & He1).
    destruct (IH s1 Hh1) as (s' & -> & Hh' & Hreg' & Ho' & He').
    exists s'. split; [done|]. split; [done|].
    rewrite Hreg', Hreg1, Ho', Ho1, He', He1, !filter_cons.
    destruct (ready n); simpl; rewrite ?app_nil_r, <- ?app_assoc; done.
Qed.

Lemma upsert_elem p n l x :
  x ∈ (device_registry.upsert p n l).1.1 →
  x ∈ l ∨ (device_registry.identifier x = device_registry.p_identifier p ∧
           device_registry.config_entry_id x = device_registry.p_config_entry_id p).
Proof.
  induction l as [|y l IH]; simpl.
  - intros ->%list_elem_of_singleton. by right.
  - destruct (decide (device_registry.identifier y = device_registry.p_identifier p))
      as [Hy|Hy]; simpl.
    + intros [->|Hx]%elem_of_cons; [by right | left; by right].
    + destruct (device_registry.upsert p n l) as [[l' d] fresh]. simpl in *.
      intros [->|Hx]%elem_of_cons; [left; by left|].
      destruct (IH Hx) as [H|H]; [left; by right | by right].
Qed.

Lemma get_or_create_identities p r i :
  i ∈ device_registry.identifier <$>
        device_registry.devices (device_registry.async_get_or_create p r).2 ↔
  i ∈ device_registry.identifier <$> device_registry.devices r ∨
  i = device_registry.p_identifier p.
Proof.
  unfold device_registry.async_get_or_create.
  pose proof (upsert_shape p (device_registry.next_id r) (device_registry.devices r))
    as Hshape.
  destruct (device_registry.upsert _ _ _) as [[l d] fresh]. simpl.
  destruct Hshape as (_ & Hids & _ & Hd & Hi).
  assert (Hp : device_registry.p_identifier p ∈ device_registry.identifier <$> l)
    by (rewrite <- Hi; apply list_elem_of_fmap; eauto).
  rewrite Hids in *. destruct fresh.
  - rewrite elem_of_app, list_elem_of_singleton. tauto.
  - rewrite app_nil_r in *. split; [tauto|]. by intros [H| ->].
Qed.

(** Every device of the entry has the identity of a live node. *)
Definition entry_live (r : device_registry.t) : Prop :=
  ∀ d, d ∈ device_registry.devices r →
       device_registry.config_entry_id d = entry_id entry →
       device_registry.identifier d ∈ get_device_id client <$> nodes client.

Lemma register_all_spec ns r :
  ns ⊆ nodes client →
  (device_registry.wf r → device_registry.wf (register_all ns r)) ∧
  (entry_live r → entry_live (register_all ns r)) ∧
  (∀ i, i ∈ device_registry.identifier <$> device_registry.devices r ∨
        i ∈ get_device_id client <$> ns →
        i ∈ device_registry.identifier <$>
              device_registry.devices (register_all ns r)).
Proof.
  revert r. induction ns as [|n ns IH]; intros r Hsub; simpl.
  - split; [done|]. split; [done|]. intros i [H|H]; [done|].
    by apply elem_of_nil in H.
  - assert (Hn : n ∈ nodes client) by (apply Hsub; by left).
    assert (Hsub' : ns ⊆ nodes client) by (intros x Hx; apply Hsub; by right).
    destruct (IH (device_registry.async_get_or_create
                    (registration_params entry client n) r).2 Hsub')
      as (IHwf & IHlive & IHid).
    split; [|split].
    + intros Hwf. by apply IHwf, wf_get_or_create.
    + intros Hlive. apply IHlive. intros d Hd He.
      unfold device_registry.async_get_or_create in Hd.
      pose proof (upsert_elem (registration_params entry client n)
                    (device_registry.next_id r) (device_registry.devices r) d) as Hel.
      destruct (device_registry.upsert _ _ _) as [[l d'] fresh]. simpl in *.
      destruct (Hel Hd) as [Hold|[Hi _]]; [by apply Hlive|].
      rewrite Hi. apply list_elem_of_fmap. by exists n.
    + intros i Hi. apply IHid. rewrite get_or_create_identities.
      rewrite ?fmap_cons, elem_of_cons in Hi. simpl. tauto.
Qed.

Lemma remove_stale_spec s :
  ∃ r', remove_stale_devices entry client s = (Ok tt, set_dev_reg r' s) ∧
        (device_registry.wf (dev_reg s) → device_registry.wf r') ∧
        entry_live r'.
Proof.
  unfold remove_stale_devices, mbind, M_bind, get. rewrite stale_loop.
  eexists. split; [reflexivity|].
  match goal with |- context [remove_all ?st ?r] =>
    destruct (remove_all_devices st r) as [Hdev Hnext];
    set (r' := remove_all st r) in * end.
  split.
  - intros Hwf.
    pose proof (wf_filter
      (fun d => device_registry.id d ∉ device_registry.id <$>
         filter (fun d => Some d ∉
           (fun node => device_registry.async_get_device
                          (get_device_id client node) (dev_reg s)) <$> nodes client)
           (device_registry.async_entries_for_config_entry (dev_reg s) (entry_id entry)))
      (dev_reg s) Hwf) as Hwf'.
    unfold device_registry.wf in *. simpl in Hwf'. by rewrite Hdev, Hnext.
  - intros d Hd He. rewrite Hdev in Hd.
    apply list_elem_of_filter in Hd as [Hnot Hd].
    destruct (decide (Some d ∈
      (fun node => device_registry.async_get_device
                     (get_device_id client node) (dev_reg s)) <$> nodes client))
      as [Hk|Hk].
    + apply list_elem_of_fmap in Hk as (node & Hlk & Hnode).
      symmetry in Hlk. apply get_device_Some in Hlk as [_ ->].
      apply list_elem_of_fmap. by exists node.
    + exfalso. apply Hnot. apply list_elem_of_fmap. exists d. split; [done|].
      apply list_elem_of_filter. split; [done|].
      unfold device_registry.async_entries_for_config_entry.
      by apply list_elem_of_filter.
Qed.

(** Once the driver is ready and no setup task has failed, [start_platforms]
    returns and leaves the registry reconciled with the controller: every
    node of the controller has a device, ready or not, and every device of
    the entry has the identity of one of the nodes; a registry with unique
    ids and identities stays so. A waiter is left for each node that is not
    ready, and what is published is the entities of the ready nodes, each
    descriptor once. *)
Theorem start_platforms_reconciles s :
  healthy s →
  ∃ s',
    start_platforms entry client (Ok tt) s = (Ok tt, s') ∧
    (device_registry.wf (dev_reg s) → device_registry.wf (dev_reg s')) ∧
    (∀ node, node ∈ nodes client →
       is_Some (device_registry.async_get_device (get_device_id client node)
                  (dev_reg s'))) ∧
    entry_live (dev_reg s') ∧
    once_ready s' =
      once_ready s ++ (node_id <$> filter (fun n => ready n = false) (nodes client)) ∧
    ∃ new,
      entity_signals (dispatched s') = entity_signals (dispatched s) ++ new ∧
      new ≡ₚ (n ← filter (fun n => ready n = true) (nodes client);
              publish entry <$> async_discover_values n).
Proof.
  intros Hh. unfold start_platforms, mbind, M_bind, modify.
  destruct (remove_stale_spec (append_unsubscribe on_homeassistant_stop s))
    as (r' & -> & Hwf' & Hlive').
  assert (Hh1 : healthy (set_dev_reg r' (append_unsubscribe on_homeassistant_stop s)))
    by exact Hh.
  destruct (added_all (nodes client) _ Hh1) as (s2 & -> & Hh2 & Hreg & Honce & Hent).
  destruct (register_all_spec (nodes client) r' (reflexivity _))
    as (Hwf & Hlive & Hid).
  eexists. split; [reflexivity|]. simpl in *. rewrite Hreg.
  split; [by auto|]. split; [|split; [by auto|split; [done|by eexists]]].
  intros node Hnode.
  destruct (device_registry.async_get_device _ _) eqn:Hlk; [by eexists|].
  apply get_device_None in Hlk. exfalso. apply Hlk, Hid. right.
  apply list_elem_of_fmap. by exists node.
Qed.

End start_facts.

Section start_witness.
Import Py zwave_js sample.

Lemma start_platforms_reconciles_witness :
  let client := client_of [node_A; node_B_added] in
  let s := initial registry_ABC in
  healthy s ∧
  ∃ s',
    start_platforms entry client (Ok tt) s = (Ok tt, s') ∧
    device_registry.identifier <$> device_registry.devices (dev_reg s') =
      [(4242, 1); (4242, 2)] ∧
    once_ready s' = [2] ∧
    entity_signals (dispatched s') =
      [add_platform "entry-1" "light" (light 1);
       add_platform "entry-1" "sensor" (sensor 1)].
Proof.
  intros client s. split; [apply healthy_initial|].
  destruct (start_platforms_reconciles entry client s (healthy_initial _))
    as (s' & Hrun & _ & _ & _ & Honce & _).
  exists s'. split; [exact Hrun|]. split; [|split; [exact Honce|]].
  - vm_compute in Hrun. injection Hrun as <-. reflexivity.
  - vm_compute in Hrun. injection Hrun as <-. reflexivity.
Defined.

End start_witness.

(** ** Setting an entry up *)

Section setup_facts.
Import Py entry_setup.
Variable (e : ConfigEntry).

Definition count (x : Logged) (h : Hass) : nat :=
  length (filter (fun l => l = x) (logged h)).

Definition entry_flags (h : Hass) : EntryHassData :=
  default empty_data (data h !! zwave_js.entry_id (entry e)).

(** The errors logged so far, and one more if the flag is not set. *)
Definition budget_connect (h : Hass) : nat :=
  count error_failed_to_connect h +
  (if flag (DATA_CONNECT_FAILED_LOGGED (entry_flags h)) then 0 else 1).

Definition budget_version (h : Hass) : nat :=
  count error_invalid_server_version h +
  (if flag (DATA_INVALID_SERVER_VERSION_LOGGED (entry_flags h)) then 0 else 1).

Lemma count_log x l h :
  count x (log l h) = (count x h + if decide (l = x) then 1 else 0)%nat.
Proof.
  unfold count. simpl. rewrite filter_app, length_app, filter_cons, filter_nil.
  by destruct (decide (l = x)).
Qed.

Lemma attempt_budget conn h :
  conn ≠ connected →
  let h' := (async_setup_entry e conn h).2 in
  (budget_connect h' ≤ budget_connect h)%nat ∧
  (budget_version h' ≤ budget_version h)%nat.
Proof.
  intros Hc. unfold async_setup_entry, budget_connect, budget_version,
    entry_flags, count.
  destruct (data h !! zwave_js.entry_id (entry e))
    as [[ps [[]|] [[]|] sp]|] eqn:Hlk;
    destruct (CONF_USE_ADDON e);
    try destruct (addon.async_ensure_addon_running _ _) as [[[]|err] m];
    destruct conn; try done; simpl; rewrite ?Hlk; simpl;
    unfold addon.async_ensure_addon_updated;
    try destruct (addon.task_in_progress _); simpl;
    rewrite ?lookup_insert_eq, ?Hlk; simpl;
    rewrite ?filter_app, ?length_app, ?filter_cons, ?filter_nil;
    repeat case_decide; simpl; try done; lia.
Qed.

(** Over any run of setup attempts none of which connects, the error of a
    failed connection is logged at most once, and so is the error of an
    invalid server version: the retries of an entry do not repeat them. *)
Theorem connect_errors_logged_once conns h :
  connected ∉ conns →
  (count error_failed_to_connect (attempts e conns h) ≤
     count error_failed_to_connect h + 1)%nat ∧
  (count error_invalid_server_version (attempts e conns h) ≤
     count error_invalid_server_version h + 1)%nat.
Proof.
  intros Hc.
  assert (Hb : (budget_connect (attempts e conns h) ≤ budget_connect h)%nat ∧
               (budget_version (attempts e conns h) ≤ budget_version h)%nat).
  { revert h. induction conns as [|c conns IH]; intros h; simpl; [lia|].
    apply not_elem_of_cons in Hc as [Hne Hc].
    destruct (attempt_budget c h) as [H1 H2]; [done|].
    destruct (IH Hc (async_setup_entry e c h).2) as [H3 H4]. lia. }
  unfold budget_connect, budget_version in Hb.
  destruct Hb as [H1 H2].
  destruct (flag (DATA_CONNECT_FAILED_LOGGED (entry_flags h))),
    (flag (DATA_INVALID_SERVER_VERSION_LOGGED (entry_flags h))); lia.
Qed.



(** With the add-on in use and running, an invalid server version has the
    update of the add-on scheduled, and the attempts that follow while the
    update is in flight end before any connection is tried and schedule
    nothing more. *)
Theorem version_mismatch_updates_addon h :
  CONF_USE_ADDON e = true →
  addon.task_in_progress (addon_manager h) = false →
  addon.addon_info (addon_manager h) = Some addon.Started →
  ∃ h1,
    async_setup_entry e InvalidServerVersion h = (Raise ConfigEntryNotReady, h1) ∧
    connects h1 = S (connects h) ∧
    last (addon.calls (addon_manager h1)) =
      Some (addon.async_schedule_update_addon true) ∧
    ∀ conn, ∃ h2,
      async_setup_entry e conn h1 = (Raise ConfigEntryNotReady, h2) ∧
      connects h2 = connects h1 ∧
      addon.calls (addon_manager h2) = addon.calls (addon_manager h1).
Proof.
  intros Hu Hb Hi. unfold async_setup_entry. rewrite Hu.
  unfold addon.async_ensure_addon_running, addon.is_addon_installed,
    addon.is_addon_running, addon.async_ensure_addon_updated.
  destruct (addon_manager h) as [busy info calls]. simpl in *. subst. simpl.
  destruct (flag _); simpl; eexists; (split; [reflexivity|]); simpl;
    (split; [done|]); (split; [by rewrite last_snoc|]);
    intros conn; eexists; (split; [reflexivity|]); done.
Qed.

(** A setup that connects sets both flags back: when the connection fails
    afterwards, or the server version is invalid, the error is logged
    again. It starts the platforms of the entry once. *)
Theorem connect_resets_log_flags h h1 :
  async_setup_entry e connected h = (Ok true, h1) →
  started h1 = started h ++ [zwave_js.entry_id (entry e)] ∧
  logged (async_setup_entry e TimeoutError h1).2 =
    logged h1 ++ [error_failed_to_connect] ∧
  logged (async_setup_entry e server_error h1).2 =
    logged h1 ++ [error_failed_to_connect] ∧
  logged (async_setup_entry e InvalidServerVersion h1).2 =
    logged h1 ++ [error_invalid_server_version].
Proof.
  unfold async_setup_entry.
  destruct (CONF_USE_ADDON e).
  - unfold addon.async_ensure_addon_running, addon.is_addon_installed,
      addon.is_addon_running, addon.async_ensure_addon_updated.
    destruct (addon_manager h) as [busy info calls]. simpl.
    destruct busy; [done|]. destruct info as [[]|]; simpl; try done.
    intros [= <-]. simpl. rewrite ?lookup_insert_eq. simpl.
    rewrite ?lookup_insert_eq. done.
  - intros [= <-]. simpl. rewrite ?lookup_insert_eq. simpl.
    rewrite ?lookup_insert_eq. done.
Qed.

End setup_facts.

Section setup_witnesses.
Import Py entry_setup.

Definition plain_entry : ConfigEntry :=
  {| entry := sample.entry; CONF_USE_ADDON := false; entry_data := usb_stick |}.

Definition addon_entry : ConfigEntry :=
  {| entry := sample.entry; CONF_USE_ADDON := true; entry_data := usb_stick |}.

Definition fresh_hass (st : addon.AddonState) : Hass :=
  {| data := ∅; addon_manager := idle st; connects := 0; logged := [];
     registered := 0; started := [] |}.

Lemma connect_errors_logged_once_witness :
  let conns := [TimeoutError; server_error; InvalidServerVersion;
                TimeoutError; InvalidServerVersion] in
  let h := fresh_hass addon.Started in
  (connected ∉ conns) ∧
  logged (attempts plain_entry conns h) =
    [error_failed_to_connect; error_invalid_server_version] ∧
  (count error_failed_to_connect (attempts plain_entry conns h) ≤
     count error_failed_to_connect h + 1)%nat ∧
  (count error_invalid_server_version (attempts plain_entry conns h) ≤
     count error_invalid_server_version h + 1)%nat.
Proof.
  intros conns h.
  assert (Hc : connected ∉ conns).
  { apply (bool_decide_unpack (connected ∉ conns)). vm_compute. exact I. }
  split; [exact Hc|]. split; [vm_compute; reflexivity|].
  exact (connect_errors_logged_once plain_entry conns h Hc).
Defined.


Lemma version_mismatch_updates_addon_witness :
  let h := fresh_hass addon.Started in
  ∃ h1,
    async_setup_entry addon_entry InvalidServerVersion h =
      (Raise ConfigEntryNotReady, h1) ∧
    connects h1 = S (connects h) ∧
    last (addon.calls (addon_manager h1)) =
      Some (addon.async_schedule_update_addon true) ∧
    ∀ conn, ∃ h2,
      async_setup_entry addon_entry conn h1 = (Raise ConfigEntryNotReady, h2) ∧
      connects h2 = connects h1 ∧
      addon.calls (addon_manager h2) = addon.calls (addon_manager h1).
Proof.
  intros h.
  apply (version_mismatch_updates_addon addon_entry h); reflexivity.
Defined.

Lemma connect_resets_log_flags_witness :
  let h := attempts plain_entry [TimeoutError; TimeoutError] (fresh_hass addon.Started) in
  let h1 := (async_setup_entry plain_entry connected h).2 in
  logged h1 = [error_failed_to_connect; info_connected] ∧
  started h1 = started h ++ ["entry-1"] ∧
  logged (async_setup_entry plain_entry TimeoutError h1).2 =
    logged h1 ++ [error_failed_to_connect] ∧
  logged (async_setup_entry plain_entry server_error h1).2 =
    logged h1 ++ [error_failed_to_connect] ∧
  logged (async_setup_entry plain_entry InvalidServerVersion h1).2 =
    logged h1 ++ [error_invalid_server_version].
Proof.
  intros h h1. split; [vm_compute; reflexivity|].
  apply (connect_resets_log_flags plain_entry h h1).
  vm_compute. reflexivity.
Defined.

End setup_witnesses.

(** ** Removing an entry *)

Section remove_facts.
Import Py addon_ops.


End remove_facts.

(** ** Disconnecting, further *)

Section disconnect_more.
Import Py disconnect.

(** A task ends without an exception: it has finished, or it finishes when
    the event loop runs it. *)
Definition ends_well (w : World) (t : Task) : Prop :=
  state w t = zwave_js.Done ∨
  state w t = zwave_js.Pending ∧ ends w t = zwave_js.Done.

Lemma settle_state t w u :
  state (settle t w) u = state w u ∨
  state w u = zwave_js.Pending ∧ state (settle t w) u = ends w u.
Proof.
  unfold settle. destruct (state w t) eqn:Ht; auto. simpl.
  case_bool_decide as Hu; [subst; by right | by left].
Qed.

Lemma gather_states ts w :
  let '(r, w') := gather ts w in
  ∀ u, state w' u = state w u ∨
       state w u = zwave_js.Pending ∧ state w' u = ends w u.
Proof.
  revert w. induction ts as [|t ts IH]; intros w; simpl; [by left|].
  destruct (settle_frame t w) as (He & _).
  destruct (state (settle t w) t) eqn:Hst; try (intros u; apply settle_state).
  specialize (IH (log (joined t) (settle t w))).
  destruct (gather ts _) as [r w']. intros u.
  destruct (IH u) as [H|[H1 H2]]; simpl in *.
  - rewrite H. apply settle_state.
  - right. rewrite H2, He.
    destruct (settle_state t w u) as [Hs|[Hs1 Hs2]]; split; congruence.
Qed.

Lemma gather_ends_well ts w :
  (∀ t, t ∈ ts → ends_well w t) → ∃ w', gather ts w = (Ok tt, w').
Proof.
  revert w. induction ts as [|t ts IH]; intros w Hall; simpl; [by eexists|].
  assert (Hst : state (settle t w) t = zwave_js.Done).
  { unfold settle. destruct (Hall t) as [Hd|[Hp He]]; [by left| |].
    - by rewrite Hd.
    - rewrite Hp. simpl. by rewrite bool_decide_eq_true_2. }
  rewrite Hst. apply IH. intros u Hu. unfold ends_well. simpl.
  destruct (settle_frame t w) as (He & _). rewrite He.
  destruct (Hall u) as [Hd|[Hp Hee]]; [by right| |].
  - left. by apply settle_Done.
  - destruct (settle_state t w u) as [Hs|[_ Hs]]; [right; by rewrite Hs|].
    left. congruence.
Qed.

(** What [disconnect_client] adds to the trace, however it ends. *)
Lemma disconnect_client_trace w :
  let '(r, w') := disconnect_client w in
  (∀ u, state w' u = state w u ∨
        state w u = zwave_js.Pending ∧ state w' u = ends w u) ∧
  ∃ evs,
    trace w' = trace w ++ (cancel <$> dependents w) ++ evs ∧
    match r with
    | Ok _ =>
        evs = (joined <$> dependents w) ++
              (if connected w then [client_disconnect; LOGGER_info] else [])
    | Raise _ => ∃ seen, evs = joined <$> seen
    end.
Proof.
  unfold disconnect_client, dependents.
  set (ts := platform_setup_tasks w).
  change (platform_setup_tasks (task_cancel platform_task (task_cancel listen_task w)))
    with ts.
  destruct (cancel_all_spec (listen_task :: platform_task :: ts) w)
    as (Htr1 & Hst1 & He1 & Hp1 & Hc1). simpl in Htr1, Hst1, He1, Hp1, Hc1.
  set (w1 := foldl (fun w t => task_cancel t w)
               (task_cancel platform_task (task_cancel listen_task w)) ts) in *.
  pose proof (gather_states (listen_task :: platform_task :: ts) w1) as Hgs.
  destruct (gather (listen_task :: platform_task :: ts) w1) as [[[]|e] w2] eqn:Hg;
    apply gather_spec in Hg as (He2 & Hp2 & Hc2 & Hd2 & Hr).
  - destruct Hr as [Htr2 Hall]. rewrite Hc2, Hc1.
    destruct (connected w); simpl.
    + split; [intros u; specialize (Hgs u); by rewrite Hst1, He1 in Hgs|].
      eexists. split; [|reflexivity].
      rewrite Htr2, Htr1. simpl. by rewrite <- !app_assoc.
    + split; [intros u; specialize (Hgs u); by rewrite Hst1, He1 in Hgs|].
      eexists. split; [|reflexivity].
      rewrite Htr2, Htr1. simpl. by rewrite <- !app_assoc, app_nil_r.
  - split; [intros u; specialize (Hgs u); by rewrite Hst1, He1 in Hgs|].
    destruct Hr as [seen Htr2]. exists (joined <$> seen).
    split; [|by exists seen]. rewrite Htr2, Htr1. simpl. by rewrite <- !app_assoc.
Qed.

(** [disconnect_client] returns if and only if every task it depends on ends
    without an exception, and it calls the transport's [disconnect] if and
    only if, besides, the client is connected. *)
Theorem disconnect_iff_tasks_end_well w :
  ((disconnect_client w).1 = Ok tt ↔ ∀ t, t ∈ dependents w → ends_well w t) ∧
  (client_disconnect ∈ drop (length (trace w)) (trace (disconnect_client w).2) ↔
     connected w = true ∧ ∀ t, t ∈ dependents w → ends_well w t).
Proof.
  assert (Hret : (disconnect_client w).1 = Ok tt ↔
                 ∀ t, t ∈ dependents w → ends_well w t).
  { split.
    - intros Hok t Ht. unfold disconnect_client, dependents in *.
      set (ts := platform_setup_tasks w) in *.
      change (platform_setup_tasks (task_cancel platform_task (task_cancel listen_task w)))
        with ts in Hok.
      destruct (cancel_all_spec (listen_task :: platform_task :: ts) w)
        as (_ & Hst1 & He1 & _). simpl in Hst1, He1.
      set (w1 := foldl (fun w t => task_cancel t w)
                   (task_cancel platform_task (task_cancel listen_task w)) ts) in *.
      pose proof (gather_states (listen_task :: platform_task :: ts) w1) as Hgs.
      destruct (gather (listen_task :: platform_task :: ts) w1) as [[[]|e] w2] eqn:Hg;
        [|done].
      apply gather_spec in Hg as (_ & _ & _ & _ & _ & Hall).
      specialize (Hall t Ht). destruct (Hgs t) as [H|[H1 H2]].
      + left. rewrite <- Hst1. congruence.
      + right. rewrite <- Hst1, <- He1. split; congruence.
    - intros Hall. unfold disconnect_client, dependents in *.
      set (ts := platform_setup_tasks w) in *.
      change (platform_setup_tasks (task_cancel platform_task (task_cancel listen_task w)))
        with ts.
      destruct (cancel_all_spec (listen_task :: platform_task :: ts) w)
        as (_ & Hst1 & He1 & _). simpl in Hst1, He1.
      set (w1 := foldl (fun w t => task_cancel t w)
                   (task_cancel platform_task (task_cancel listen_task w)) ts) in *.
      destruct (gather_ends_well (listen_task :: platform_task :: ts) w1) as [w2 ->].
      { intros t Ht. unfold ends_well. rewrite Hst1, He1. by apply Hall. }
      by destruct (connected w2). }
  split; [exact Hret|].
  pose proof (disconnect_client_trace w) as Htr.
  destruct (disconnect_client w) as [r w'] eqn:Hdc. cbn [fst snd] in *.
  destruct Htr as (_ & evs & -> & Hevs).
  rewrite drop_app_length. rewrite <- Hret. clear Hret.
  destruct r as [[]|e].
  - subst evs. destruct (connected w).
    + split; [done|]. intros _. rewrite !elem_of_app. right. right.
      apply list_elem_of_here.
    + split; [|by intros [? _]]. rewrite app_nil_r. intros Hin.
      by apply (disconnect_not_cancel_or_joined (dependents w) (dependents w)) in Hin.
  - destruct Hevs as [seen ->]. split; [|by intros [_ ?]].
    intros Hin.
    by apply (disconnect_not_cancel_or_joined (dependents w) seen) in Hin.
Qed.

End disconnect_more.

(** ** Unloading an entry *)

Section unload_facts.
Import Py entry_unload.

(** What of a session the tasks' progress leaves alone. *)
Definition same_config (s s' : Session) : Prop :=
  unsubscribe_callbacks s' = unsubscribe_callbacks s ∧
  has_listen_task s' = has_listen_task s ∧
  unloads s' = unloads s ∧ setup_result s' = setup_result s ∧
  use_addon s' = use_addon s ∧ disabled_by s' = disabled_by s ∧
  supervisor s' = supervisor s.

Definition same_transport (w w' : disconnect.World) : Prop :=
  disconnect.ends w' = disconnect.ends w ∧
  disconnect.platforms w' = disconnect.platforms w ∧
  disconnect.connected w' = disconnect.connected w.

Lemma same_config_refl s : same_config s s.
Proof. by repeat split. Qed.

Lemma same_config_trans s1 s2 s3 :
  same_config s1 s2 → same_config s2 s3 → same_config s1 s3.
Proof.
  intros (?&?&?&?&?&?&?) (?&?&?&?&?&?&?). repeat split; congruence.
Qed.

Lemma same_transport_trans w1 w2 w3 :
  same_transport w1 w2 → same_transport w2 w3 → same_transport w1 w3.
Proof. intros (?&?&?) (?&?&?). repeat split; congruence. Qed.

Definition pending (w : disconnect.World) (pf : string) : Prop :=
  disconnect.state w (disconnect.setup_task pf) = zwave_js.Pending.

#[local] Instance pending_dec w pf : Decision (pending w pf).
Proof. unfold pending. apply _. Defined.

Definition awaitable_of (w : disconnect.World) (pf : string) : Awaitable :=
  if decide (pending w pf) then setup pf else unload_coroutine pf.

Definition cancel_step (pf : string) : Step :=
  task_event (disconnect.cancel (disconnect.setup_task pf)).

Lemma collect_spec pfs s :
  let '(aws, s') := collect pfs s in
  aws = awaitable_of (world s) <$> pfs ∧
  steps s' = steps s ++ (cancel_step <$> filter (pending (world s)) pfs) ∧
  disconnect.state (world s') = disconnect.state (world s) ∧
  same_transport (world s) (world s') ∧ same_config s s'.
Proof.
  revert s. induction pfs as [|pf pfs IH]; intros s; simpl.
  - rewrite app_nil_r. repeat split.
  - unfold awaitable_of at 1. rewrite filter_cons.
    destruct (decide (pending (world s) pf)) as [Hp|Hp].
    + rewrite bool_decide_eq_true_2 by exact Hp.
      match goal with |- context [collect pfs ?x] =>
        specialize (IH x); destruct (collect pfs x) as [aws s'] end.
      destruct IH as (-> & Hst & Hs & Ht & Hc). simpl in *.
      split; [done|]. split; [by rewrite Hst, <- app_assoc|].
      split; [done|]. split; [done|done].
    + rewrite bool_decide_eq_false_2 by exact Hp.
      specialize (IH s). destruct (collect pfs s) as [aws s'].
      destruct IH as (-> & Hst & Hs & Ht & Hc). done.
Qed.

(** The steps [gather] adds: one for each awaitable it got to the end of. *)
Definition gather_step (aw : Awaitable) : Step :=
  match aw with
  | unload_coroutine pf => async_forward_entry_unload pf
  | setup pf => task_event (disconnect.joined (disconnect.setup_task pf))
  end.

Ltac frame :=
  repeat match goal with
         | H : same_transport _ _ |- _ => destruct H as (?&?&?)
         | H : same_config _ _ |- _ => destruct H as (?&?&?&?&?&?&?)
         end;
  simpl in *; unfold same_transport, same_config; simpl;
  repeat split; congruence.

Lemma gather_spec' aws s :
  let '(r, s') := gather aws s in
  same_transport (world s) (world s') ∧ same_config s s' ∧
  (∀ t, disconnect.state (world s) t ≠ zwave_js.Pending →
        disconnect.state (world s') t = disconnect.state (world s) t) ∧
  match r with
  | Ok bs =>
      steps s' = steps s ++ (gather_step <$> aws) ∧
      (∀ pf, setup pf ∈ aws →
             disconnect.state (world s') (disconnect.setup_task pf) = zwave_js.Done) ∧
      (forallb id bs = true → ∀ pf, unload_coroutine pf ∈ aws →
                                     unloads s pf = Ok true)
  | Raise _ =>
      ∃ k, (k ≤ length aws)%nat ∧
           steps s' = steps s ++ (gather_step <$> take k aws)
  end.
Proof.
  revert s. induction aws as [|[pf|pf] aws IH]; intros s; simpl.
  - rewrite app_nil_r. split; [frame|]. split; [frame|]. split; [done|].
    split; [done|]. split.
    + intros pf H. by apply elem_of_nil in H.
    + intros _ pf H. by apply elem_of_nil in H.
  - destruct (unloads s pf) as [b|e] eqn:Hu.
    + match goal with |- context [gather aws ?x] =>
        specialize (IH x); destruct (gather aws x) as [[bs|e] s'] end;
        destruct IH as (Ht & Hc & Hd & Hr).
      * destruct Hr as (Hst & Hdone & Hall).
        split; [frame|]. split; [frame|]. split; [exact Hd|]. simpl in *.
        split; [by rewrite Hst, <- app_assoc|].
        split.
        -- intros pf' [?|H]%elem_of_cons; [done|]. by apply Hdone.
        -- intros [Hb Hbs]%andb_prop pf' [[= ->]|H]%elem_of_cons.
           ++ by destruct b.
           ++ by apply Hall.
      * split; [frame|]. split; [frame|]. split; [exact Hd|]. simpl in *.
        destruct Hr as (k & Hk & Hr). exists (S k). split; [lia|].
        simpl. by rewrite Hr, <- app_assoc.
    + split; [frame|]. split; [frame|]. split; [done|].
      exists 1%nat. split; [lia|]. simpl. by rewrite ?take_0.
  - pose proof (settle_frame (disconnect.setup_task pf) (world s))
      as (He & Hp & Hcn & Htr).
    assert (Hkeep : ∀ t, disconnect.state (world s) t ≠ zwave_js.Pending →
              disconnect.state (disconnect.settle (disconnect.setup_task pf) (world s)) t
              = disconnect.state (world s) t).
    { intros t Ht. unfold disconnect.settle.
      destruct (disconnect.state (world s) (disconnect.setup_task pf)) eqn:Hs;
        try done. simpl. case_bool_decide; [by subst|done]. }
    destruct (disconnect.state (disconnect.settle _ _) _) eqn:Hst.
    + split; [frame|]. split; [frame|]. split; [exact Hkeep|].
      exists 0%nat. split; [lia|]. simpl. by rewrite app_nil_r.
    + match goal with |- context [gather aws ?x] =>
        specialize (IH x); destruct (gather aws x) as [[bs|e] s'] end;
        destruct IH as (Ht & Hc & Hd & Hr).
      * destruct Hr as (Hsteps & Hdone & Hall).
        split; [frame|]. split; [frame|]. simpl in *.
        split; [intros t Hne; rewrite Hd; auto; by rewrite Hkeep|].
        split; [by rewrite Hsteps, <- app_assoc|].
        split.
        -- intros pf' [[= ->]|H]%elem_of_cons; [|by apply Hdone].
           rewrite Hd; [done|]. by rewrite Hst.
        -- intros [_ Hb]%andb_prop pf' [?|H]%elem_of_cons; [done|]. by apply Hall.
      * split; [frame|]. split; [frame|]. simpl in *.
        split; [intros t Hne; rewrite Hd; auto; by rewrite Hkeep|].
        destruct Hr as (k & Hk & Hr). exists (S k). split; [lia|].
        simpl. by rewrite Hr, <- app_assoc.
    + split; [frame|]. split; [frame|]. split; [exact Hkeep|].
      exists 0%nat. split; [lia|]. simpl. by rewrite app_nil_r.
    + split; [frame|]. split; [frame|]. split; [exact Hkeep|].
      exists 0%nat. split; [lia|]. simpl. by rewrite app_nil_r.
Qed.

(** The part of [disconnect_client] in an unload: the entry's data are
    popped by then, so it sees no platform-setup task. *)
Definition transport_steps (s : Session) : list Step :=
  task_event <$>
    ([disconnect.cancel disconnect.listen_task;
      disconnect.cancel disconnect.platform_task;
      disconnect.joined disconnect.listen_task;
      disconnect.joined disconnect.platform_task] ++
     if disconnect.connected (world s)
     then [disconnect.client_disconnect; disconnect.LOGGER_info] else []).

Lemma unload_disconnect_spec s :
  disconnect.platforms (world s) = None →
  let '(r, s') := disconnect_client s in
  same_config s s' ∧
  match r with
  | Ok _ => steps s' = steps s ++ transport_steps s
  | Raise _ =>
      ∃ seen, steps s' = steps s ++
        (task_event <$>
           ([disconnect.cancel disconnect.listen_task;
             disconnect.cancel disconnect.platform_task] ++
            (disconnect.joined <$> seen)))
  end.
Proof.
  intros Hp. unfold disconnect_client, transport_steps.
  pose proof (disconnect_client_trace (world s)) as Htr.
  destruct (disconnect.disconnect_client (world s)) as [r w'].
  destruct Htr as (_ & evs & -> & Hevs).
  rewrite drop_app_length.
  unfold disconnect.dependents, disconnect.platform_setup_tasks in *.
  rewrite Hp in *. simpl in *.
  split; [frame|]. destruct r as [[]|e].
  - subst evs. simpl. done.
  - destruct Hevs as [seen ->]. exists seen. done.
Qed.

Definition addon_steps (s : Session) : list Step :=
  if use_addon s && disabled_by s
  then addon_op addon_ops.async_stop_addon ::
       (if addon_ops.fails (supervisor s) addon_ops.async_stop_addon
        then [LOGGER_error] else [])
  else [].

(** What [async_unload_entry] does step by step, for an entry that has its
    data in [hass.data]. *)
Lemma unload_spec s pfs :
  disconnect.platforms (world s) = Some pfs →
  let aws := awaitable_of (world s) <$> pfs in
  let '(r, s') := async_unload_entry s in
  ∃ rest,
    steps s' =
      steps s ++ (unsub <$> seq 0 (unsubscribe_callbacks s)) ++
        (cancel_step <$> filter (pending (world s)) pfs) ++ rest ∧
    match r with
    | Ok b =>
        rest = (gather_step <$> aws) ++
               (if has_listen_task s then transport_steps s else []) ++
               addon_steps s ∧
        (b = true →
           (∀ pf, pf ∈ pfs → ¬ pending (world s) pf → unloads s pf = Ok true) ∧
           (use_addon s && disabled_by s = true →
              addon_ops.fails (supervisor s) addon_ops.async_stop_addon = false))
    | Raise _ =>
        supervisor s' = supervisor s ∧
        ∃ k seen,
          rest = (gather_step <$> take k aws) ∨
          rest = (gather_step <$> aws) ++
                 (task_event <$>
                    ([disconnect.cancel disconnect.listen_task;
                      disconnect.cancel disconnect.platform_task] ++
                     (disconnect.joined <$> seen)))
    end.
Proof.
  intros Hpfs aws. unfold async_unload_entry. rewrite Hpfs.
  set (s0 := add_steps (unsub <$> seq 0 (unsubscribe_callbacks (set_world (popped (world s)) s)))
               (set_world (popped (world s)) s)).
  pose proof (collect_spec pfs s0) as Hcol.
  destruct (collect pfs s0) as [tasks s1].
  destruct Hcol as (-> & Hst1 & Hs1 & Ht1 & Hc1).
  change (awaitable_of (world s0)) with (awaitable_of (world s)) in *.
  change (pending (world s0)) with (pending (world s)) in *.
  fold aws.
  pose proof (gather_spec' aws s1) as Hg.
  destruct (gather aws s1) as [[bs|e] s2]; destruct Hg as (Ht2 & Hc2 & Hd2 & Hr).
  2: { destruct Hr as (k & Hk & Hsteps). eexists. split.
       - rewrite Hsteps, Hst1. simpl. rewrite <- !app_assoc. reflexivity.
       - split; [frame|]. exists k, []. by left. }
  destruct Hr as (Hsteps & Hdone & Hall).
  assert (Hpop : disconnect.platforms (world s2) = None) by frame.
  assert (Hl : has_listen_task s2 = has_listen_task s) by frame.
  assert (Hcn : disconnect.connected (world s2) = disconnect.connected (world s))
    by frame.
  assert (Hts : transport_steps s2 = transport_steps s)
    by (unfold transport_steps; by rewrite Hcn).
  assert (Hunl : ∀ pf, pf ∈ pfs → ¬ pending (world s) pf →
                       forallb id bs = true → unloads s pf = Ok true).
  { intros pf Hpf Hnp Hb.
    assert (Hu : unloads s1 pf = Ok true).
    { apply Hall; [done|]. apply list_elem_of_fmap. exists pf. split; [|done].
      unfold awaitable_of. by rewrite decide_False. }
    assert (unloads s1 = unloads s) as <- by frame. done. }
  rewrite Hl.
  assert (Hstage : ∃ r3 s3,
     (if has_listen_task s then disconnect_client s2 else (Ok (), s2)) = (r3, s3) ∧
     same_config s2 s3 ∧
     match r3 with
     | Ok _ => steps s3 = steps s2 ++ (if has_listen_task s then transport_steps s else [])
     | Raise _ => ∃ seen, steps s3 = steps s2 ++
          (task_event <$>
             ([disconnect.cancel disconnect.listen_task;
               disconnect.cancel disconnect.platform_task] ++
              (disconnect.joined <$> seen)))
     end).
  { destruct (has_listen_task s).
    - pose proof (unload_disconnect_spec s2 Hpop) as Hd.
      destruct (disconnect_client s2) as [r3 s3]. exists r3, s3.
      split; [done|]. destruct Hd as [Hc3 Hd]. split; [done|].
      destruct r3; [by rewrite Hd, Hts | done].
    - exists (Ok ()), s2. split; [done|]. split; [apply same_config_refl|].
      by rewrite app_nil_r. }
  destruct Hstage as (r3 & s3 & -> & Hc3 & Hr3).
  destruct r3 as [[]|e].
  2: { destruct Hr3 as [seen Hsteps3]. eexists. split.
       - rewrite Hsteps3, Hsteps, Hst1. simpl. rewrite <- !app_assoc. reflexivity.
       - split; [frame|]. exists 0%nat, seen. by right. }
  assert (Hua : use_addon s3 && disabled_by s3 = use_addon s && disabled_by s).
  { assert (use_addon s3 = use_addon s) as -> by frame.
    assert (disabled_by s3 = disabled_by s) as -> by frame. done. }
  assert (Hsup : supervisor s3 = supervisor s) by frame.
  unfold addon_steps. rewrite Hua, Hsup.
  destruct (use_addon s && disabled_by s); simpl.
  - unfold addon_ops.perform.
    destruct (addon_ops.fails (supervisor s) addon_ops.async_stop_addon) eqn:Hf; simpl.
    + exists ((gather_step <$> aws) ++
              (if has_listen_task s then transport_steps s else []) ++
              [addon_op addon_ops.async_stop_addon; LOGGER_error]).
      split; [|done].
      rewrite Hr3, Hsteps, Hst1. simpl. by rewrite <- !app_assoc.
    + exists ((gather_step <$> aws) ++
              (if has_listen_task s then transport_steps s else []) ++
              [addon_op addon_ops.async_stop_addon]).
      split; [|split; [done|]].
      * rewrite Hr3, Hsteps, Hst1. simpl. by rewrite <- !app_assoc.
      * intros Hb. split; [|done]. intros pf Hpf Hnp. by apply Hunl.
  - exists ((gather_step <$> aws) ++
            (if has_listen_task s then transport_steps s else []) ++ []).
    split; [|split; [done|]].
    + rewrite Hr3, Hsteps, Hst1. simpl. by rewrite <- !app_assoc, app_nil_r.
    + intros Hb. split; [|done]. intros pf Hpf Hnp. by apply Hunl.
Qed.



(** When [async_unload_entry] raises, it has not disconnected the client and
    has not stopped the add-on. *)
Theorem unload_raise_leaves_transport s pfs e s' :
  disconnect.platforms (world s) = Some pfs →
  async_unload_entry s = (Raise e, s') →
  supervisor s' = supervisor s ∧
  ∃ new, steps s' = steps s ++ new ∧
         (task_event disconnect.client_disconnect ∉ new) ∧
         (addon_op addon_ops.async_stop_addon ∉ new).
Proof.
  intros Hpfs Hrun. pose proof (unload_spec s pfs Hpfs) as Hspec.
  rewrite Hrun in Hspec. destruct Hspec as (rest & Hsteps & Hsup & k & seen & Hrest).
  split; [done|]. eexists. split; [exact Hsteps|].
  assert (Hg : ∀ (x : Step) (l : list Awaitable),
             (∀ pf, x ≠ async_forward_entry_unload pf) →
             (∀ pf, x ≠ task_event (disconnect.joined (disconnect.setup_task pf))) →
             x ∉ gather_step <$> l).
  { intros x l H1 H2 [[pf|pf] [-> _]]%list_elem_of_fmap; simpl in *;
      [by eapply H1 | by eapply H2]. }
  split.
  - rewrite !elem_of_app, !list_elem_of_fmap.
    intros [(i & [=] & _)|[(pf & [=] & _)|Hin]].
    destruct Hrest as [-> | ->].
    + revert Hin. by apply Hg.
    + apply elem_of_app in Hin as [Hin|Hin]; [revert Hin; by apply Hg|].
      apply list_elem_of_fmap in Hin as (ev & [= <-] & Hin). simpl in Hin.
      rewrite !elem_of_cons, list_elem_of_fmap in Hin.
      destruct Hin as [?|[?|(t & ? & _)]]; done.
  - rewrite !elem_of_app, !list_elem_of_fmap.
    intros [(i & [=] & _)|[(pf & [=] & _)|Hin]].
    destruct Hrest as [-> | ->].
    + revert Hin. by apply Hg.
    + apply elem_of_app in Hin as [Hin|Hin]; [revert Hin; by apply Hg|].
      apply list_elem_of_fmap in Hin as (ev & [=] & _).
Qed.

(** When [async_unload_entry] returns, it has called every unsubscribe
    callback, then cancelled the platform-setup tasks still pending, then,
    platform by platform, unloaded the platform whose task had finished or
    awaited the task it cancelled; only after that it has cancelled and
    awaited the listen and start-platforms tasks and disconnected a connected
    client; last it has stopped the add-on of a disabled entry using it. *)
Theorem unload_in_order s pfs b s' :
  disconnect.platforms (world s) = Some pfs →
  async_unload_entry s = (Ok b, s') →
  steps s' =
    steps s ++ (unsub <$> seq 0 (unsubscribe_callbacks s)) ++
      (cancel_step <$> filter (pending (world s)) pfs) ++
      (gather_step <$> (awaitable_of (world s) <$> pfs)) ++
      (if has_listen_task s then transport_steps s else []) ++
      addon_steps s.
Proof.
  intros Hpfs Hrun. pose proof (unload_spec s pfs Hpfs) as Hspec.
  rewrite Hrun in Hspec. destruct Hspec as (rest & -> & -> & _). done.
Qed.

(** [async_unload_entry] returns [True] only if every platform whose setup
    task had finished was unloaded with [True] and, for a disabled entry
    using the add-on, the add-on was stopped without an error. *)
Theorem unload_reports_success s pfs s' :
  disconnect.platforms (world s) = Some pfs →
  async_unload_entry s = (Ok true, s') →
  (∀ pf, pf ∈ pfs → ¬ pending (world s) pf → unloads s pf = Ok true) ∧
  (use_addon s && disabled_by s = true →
     addon_ops.fails (supervisor s) addon_ops.async_stop_addon = false).
Proof.
  intros Hpfs Hrun. pose proof (unload_spec s pfs Hpfs) as Hspec.
  rewrite Hrun in Hspec. destruct Hspec as (rest & _ & _ & Hb). by apply Hb.
Qed.

(** However [async_unload_entry] ends, it unloads only platforms whose setup
    task had finished and cancels only setup tasks that were pending: no
    platform is both unloaded and cancelled. *)
Theorem unload_or_cancel s pfs pf :
  disconnect.platforms (world s) = Some pfs →
  let new := drop (length (steps s)) (steps (async_unload_entry s).2) in
  (async_forward_entry_unload pf ∈ new → pf ∈ pfs ∧ ¬ pending (world s) pf) ∧
  (cancel_step pf ∈ new → pf ∈ pfs ∧ pending (world s) pf).
Proof.
  intros Hpfs new. pose proof (unload_spec s pfs Hpfs) as Hspec.
  subst new. destruct (async_unload_entry s) as [r s']. cbn [snd].
  destruct Hspec as (rest & -> & Hr). rewrite drop_app_length.
  assert (Hu : ∀ l : list Awaitable,
            l ⊆ awaitable_of (world s) <$> pfs →
            async_forward_entry_unload pf ∈ gather_step <$> l →
            pf ∈ pfs ∧ ¬ pending (world s) pf).
  { intros l Hl [aw [Haw Hin]]%list_elem_of_fmap.
    apply Hl, list_elem_of_fmap in Hin as (pf' & -> & Hpf').
    unfold awaitable_of in Haw.
    destruct (decide (pending (world s) pf')); [done|]. by injection Haw as ->. }
  assert (Hc : ∀ l : list Awaitable, cancel_step pf ∉ gather_step <$> l).
  { intros l [[pf'|pf'] [Haw _]]%list_elem_of_fmap; done. }
  assert (Hsub : ∀ k, take k (awaitable_of (world s) <$> pfs) ⊆
                      awaitable_of (world s) <$> pfs).
  { intros k. apply subseteq_take. }
  assert (Hts : ∀ l : list disconnect.Event,
            async_forward_entry_unload pf ∉ task_event <$> l).
  { intros l (ev & [=] & _)%list_elem_of_fmap. }
  split.
  - rewrite !elem_of_app, !list_elem_of_fmap.
    intros [(i & [=] & _)|[(pf' & [=] & _)|Hin]].
    destruct r as [b|e].
    + destruct Hr as [-> _]. rewrite !elem_of_app in Hin.
      destruct Hin as [Hin|[Hin|Hin]].
      * by apply (Hu _ (reflexivity _)).
      * destruct (has_listen_task s); [|by apply elem_of_nil in Hin].
        by apply Hts in Hin.
      * unfold addon_steps in Hin. destruct (use_addon s && disabled_by s);
          [|by apply elem_of_nil in Hin].
        apply elem_of_cons in Hin as [?|Hin]; [done|].
        destruct (addon_ops.fails _ _); [|by apply elem_of_nil in Hin].
        by apply list_elem_of_singleton in Hin.
    + destruct Hr as (_ & k & seen & [-> | ->]).
      * by apply (Hu _ (Hsub k)).
      * apply elem_of_app in Hin as [Hin|Hin]; [by apply (Hu _ (reflexivity _))|].
        by apply Hts in Hin.
  - rewrite !elem_of_app, !list_elem_of_fmap.
    intros [(i & [=] & _)|[(pf' & Heq & Hin)|Hin]].
    { unfold cancel_step in Heq. injection Heq as ->.
      apply list_elem_of_filter in Hin. tauto. }
    exfalso. destruct r as [b|e].
    + destruct Hr as [-> _]. rewrite !elem_of_app in Hin.
      destruct Hin as [Hin|[Hin|Hin]].
      * by apply Hc in Hin.
      * destruct (has_listen_task s); [|by apply elem_of_nil in Hin].
        unfold transport_steps in Hin.
        apply list_elem_of_fmap in Hin as (ev & [= <-] & Hin).
        rewrite elem_of_app, !elem_of_cons in Hin.
        destruct Hin as [[?|[?|[?|[?|Hin]]]]|Hin]; try done.
        -- by apply elem_of_nil in Hin.
        -- destruct (disconnect.connected (world s)); [|by apply elem_of_nil in Hin].
           rewrite !elem_of_cons in Hin. destruct Hin as [?|[?|Hin]]; try done.
           by apply elem_of_nil in Hin.
      * unfold addon_steps in Hin. destruct (use_addon s && disabled_by s);
          [|by apply elem_of_nil in Hin].
        apply elem_of_cons in Hin as [?|Hin]; [done|].
        destruct (addon_ops.fails _ _); [|by apply elem_of_nil in Hin].
        by apply list_elem_of_singleton in Hin.
    + destruct Hr as (_ & k & seen & [-> | ->]).
      * by apply Hc in Hin.
      * apply elem_of_app in Hin as [Hin|Hin]; [by apply Hc in Hin|].
        apply list_elem_of_fmap in Hin as (ev & [= <-] & Hin).
        rewrite elem_of_app, !elem_of_cons, list_elem_of_fmap in Hin.
        destruct Hin as [[?|[?|Hin]]|(t & ? & _)]; try done.
        by apply elem_of_nil in Hin.
Qed.

End unload_facts.

Section unload_witnesses.
Import Py entry_unload.

Lemma pair_eta_fst {A B} (p : A * B) (a : A) : p.1 = a → p = (a, p.2).
Proof. destruct p. simpl. by intros ->. Qed.

(** A session with the light platform set up and the sensor platform still
    being set up; [sensor_ends] is how that task takes its cancellation. *)
Definition unloading (sensor_ends : zwave_js.TaskState) : Session :=
  {| world :=
       {| disconnect.state := fun t =>
            match t with
            | disconnect.listen_task => zwave_js.Pending
            | disconnect.setup_task "sensor" => zwave_js.Pending
            | _ => zwave_js.Done
            end;
          disconnect.cancel_requested := fun _ => false;
          disconnect.ends := fun t =>
            match t with
            | disconnect.setup_task "sensor" => sensor_ends
            | _ => zwave_js.Done
            end;
          disconnect.platforms := Some ["light"; "sensor"];
          disconnect.connected := true;
          disconnect.trace := [] |};
     unsubscribe_callbacks := 2;
     has_listen_task := true;
     unloads := fun _ => Ok true;
     setup_result := fun _ => true;
     use_addon := true;
     disabled_by := true;
     supervisor := {| addon_ops.fails := fun _ => false;
                      addon_ops.performed := []; addon_ops.errors := [] |};
     steps := [] |}.

Lemma unload_in_order_witness :
  let s := unloading zwave_js.Done in
  (async_unload_entry s).1 = Ok true ∧
  steps (async_unload_entry s).2 =
    [unsub 0; unsub 1;
     task_event (disconnect.cancel (disconnect.setup_task "sensor"));
     async_forward_entry_unload "light";
     task_event (disconnect.joined (disconnect.setup_task "sensor"));
     task_event (disconnect.cancel disconnect.listen_task);
     task_event (disconnect.cancel disconnect.platform_task);
     task_event (disconnect.joined disconnect.listen_task);
     task_event (disconnect.joined disconnect.platform_task);
     task_event disconnect.client_disconnect;
     task_event disconnect.LOGGER_info;
     addon_op addon_ops.async_stop_addon].
Proof.
  intros s.
  assert (H1 : (async_unload_entry s).1 = Ok true) by (vm_compute; reflexivity).
  split; [exact H1|].
  rewrite (unload_in_order s ["light"; "sensor"] true (async_unload_entry s).2
             eq_refl (pair_eta_fst _ _ H1)).
  vm_compute. reflexivity.
Defined.

Lemma unload_reports_success_witness :
  let s := unloading zwave_js.Done in
  (async_unload_entry s).1 = Ok true ∧
  (∀ pf, pf ∈ ["light"; "sensor"] → ¬ pending (world s) pf → unloads s pf = Ok true) ∧
  (use_addon s && disabled_by s = true →
     addon_ops.fails (supervisor s) addon_ops.async_stop_addon = false).
Proof.
  intros s.
  assert (H1 : (async_unload_entry s).1 = Ok true) by (vm_compute; reflexivity).
  split; [exact H1|].
  exact (unload_reports_success s ["light"; "sensor"] (async_unload_entry s).2
           eq_refl (pair_eta_fst _ _ H1)).
Defined.

Lemma unload_or_cancel_witness :
  let s := unloading zwave_js.Done in
  let new := drop (length (steps s)) (steps (async_unload_entry s).2) in
  async_forward_entry_unload "light" ∈ new ∧ cancel_step "sensor" ∈ new ∧
  (async_forward_entry_unload "sensor" ∈ new →
     "sensor" ∈ ["light"; "sensor"] ∧ ¬ pending (world s) "sensor") ∧
  (cancel_step "light" ∈ new →
     "light" ∈ ["light"; "sensor"] ∧ pending (world s) "light").
Proof.
  intros s new.
  split; [apply (bool_decide_unpack (async_forward_entry_unload "light" ∈ new));
          vm_compute; exact I|].
  split; [apply (bool_decide_unpack (cancel_step "sensor" ∈ new));
          vm_compute; exact I|].
  split.
  - exact (proj1 (unload_or_cancel s ["light"; "sensor"] "sensor" eq_refl)).
  - exact (proj2 (unload_or_cancel s ["light"; "sensor"] "light" eq_refl)).
Defined.


Lemma unload_raise_leaves_transport_witness :
  let s := unloading zwave_js.Cancelled in
  let s' := (async_unload_entry s).2 in
  steps s' =
    [unsub 0; unsub 1;
     task_event (disconnect.cancel (disconnect.setup_task "sensor"));
     async_forward_entry_unload "light"] ∧
  supervisor s' = supervisor s ∧
  ∃ new, steps s' = steps s ++ new ∧
         (task_event disconnect.client_disconnect ∉ new) ∧
         (addon_op addon_ops.async_stop_addon ∉ new).
Proof.
  intros s s'. split; [vm_compute; reflexivity|].
  apply (unload_raise_leaves_transport s ["light"; "sensor"] CancelledError s').
  - reflexivity.
  - apply pair_eta_fst. vm_compute. reflexivity.
Defined.

End unload_witnesses.

(** ** Why a discovery pass fails *)

Section pass_failure_facts.
Import Py zwave_js.
Variables (entry : ConfigEntry) (client : ZwaveClient).











End pass_failure_facts.

Section pass_failure_witness.
Import Py zwave_js sample.


End pass_failure_witness.

(** ** The decoded value of a notification *)

Section decoded_value_facts.
Import Py zwave_js.
Variable (client : ZwaveClient).

(** A value notification whose value has an entry in the states table of its
    metadata is published with the label as its value and the value itself
    as its raw value; the device id of the event is the id of the device
    registered with the identity of the notification's node. *)
Theorem value_notification_decoded notification s s' lbl :
  async_on_value_notification client notification s = (Ok tt, s') →
  vn_states notification !! str (vn_value notification) = Some lbl →
  ∃ data device,
    fired s' = fired s ++ [ZWAVE_JS_VALUE_NOTIFICATION_EVENT data] ∧
    ATTR_VALUE data = VStr lbl ∧
    ATTR_VALUE_RAW data = vn_value notification ∧
    device ∈ device_registry.devices (dev_reg s) ∧
    device_registry.identifier device =
      get_device_id client (vn_node notification) ∧
    ATTR_DEVICE_ID data = device_registry.id device.
Proof.
  intros Hrun Hlbl.
  apply value_notification_fires in Hrun as (device & Hdev & ->).
  apply get_device_Some in Hdev as [Hin Hid].
  eexists _, device. split; [reflexivity|]. simpl.
  split; [by apply decode_value_label|]. done.
Qed.

End decoded_value_facts.

Section decoded_value_witness.
Import Py zwave_js sample.

Lemma value_notification_decoded_witness :
  let client := client_of [node_B] in
  let s := initial registry_ABC in
  let s' := (async_on_value_notification client press s).2 in
  vn_states press !! str (vn_value press) = Some "KeyPressed" ∧
  ∃ data device,
    fired s' = fired s ++ [ZWAVE_JS_VALUE_NOTIFICATION_EVENT data] ∧
    ATTR_VALUE data = VStr "KeyPressed" ∧
    ATTR_VALUE_RAW data = vn_value press ∧
    device ∈ device_registry.devices (dev_reg s) ∧
    device_registry.identifier device = get_device_id client (vn_node press) ∧
    ATTR_DEVICE_ID data = device_registry.id device.
Proof.
  intros client s s'.
  assert (Hl : vn_states press !! str (vn_value press) = Some "KeyPressed")
    by (vm_compute; reflexivity).
  split; [exact Hl|].
  apply (value_notification_decoded client press s s' "KeyPressed"); [|exact Hl].
  vm_compute. reflexivity.
Defined.

End decoded_value_witness.

(** ** Retries while the add-on is being installed or started *)

Section addon_retry_facts.
Import Py addon.

(** [n] calls of [async_ensure_addon_running], one after the other. *)
Fixpoint retries (n : nat) (data : EntryData) (m : AddonManager) : AddonManager :=
  match n with
  | O => m
  | S n' => retries n' data (async_ensure_addon_running data m).2
  end.

(** With the add-on not installed, or installed and stopped, the first call
    schedules its installation or its start, and the calls made after it
    while the scheduled operation is in flight, however many, neither ask the
    supervisor anything nor schedule anything: they leave the manager as the
    first call left it. *)
Theorem retries_schedule_once data m n :
  task_in_progress m = false →
  addon_info m = Some NotInstalled ∨ addon_info m = Some Stopped →
  retries (S n) data m = (async_ensure_addon_running data m).2 ∧
  ∃ op, calls (retries (S n) data m) =
          calls m ++ [async_is_addon_installed; async_is_addon_running; op] ∧
        (op = async_schedule_install_setup_addon
                (CONF_USB_PATH data) (CONF_NETWORK_KEY data) true ∨
         op = async_schedule_setup_addon
                (CONF_USB_PATH data) (CONF_NETWORK_KEY data) true).
Proof.
  intros Hb Hi.
  assert (Hbusy : ∀ k m', task_in_progress m' = true → retries k data m' = m').
  { induction k as [|k IH]; intros m' Hm'; [done|]. simpl.
    unfold async_ensure_addon_running at 1. rewrite Hm'. simpl. by apply IH. }
  simpl. destruct m as [busy info log]. simpl in *. subst busy.
  unfold async_ensure_addon_running, is_addon_installed, is_addon_running.
  destruct Hi as [-> | ->]; simpl; rewrite Hbusy by done;
    (split; [done|]); eexists; simpl; rewrite <- !app_assoc;
    (split; [reflexivity|]); by auto.
Qed.

Lemma retries_schedule_once_witness :
  let m := idle NotInstalled in
  retries 5 usb_stick m = (async_ensure_addon_running usb_stick m).2 ∧
  ∃ op, calls (retries 5 usb_stick m) =
          calls m ++ [async_is_addon_installed; async_is_addon_running; op] ∧
        (op = async_schedule_install_setup_addon
                (CONF_USB_PATH usb_stick) (CONF_NETWORK_KEY usb_stick) true ∨
         op = async_schedule_setup_addon
                (CONF_USB_PATH usb_stick) (CONF_NETWORK_KEY usb_stick) true).
Proof.
  intros m. apply (retries_schedule_once usb_stick m 4); [reflexivity|].
  left. reflexivity.
Defined.

End addon_retry_facts.
